(** * Etch-a-sketch: the line rasterizer and the cell colour engine

    A shallow embedding of [script.js] (module [Script]) and of the variant
    of the same script that sets up its listeners in [startPainting] (module
    [Variant]), followed by the properties of the rasterizer, the colour
    step, the dimension prompt and the pointer state.

    Modelling conventions.
    - Cell coordinates and colour channels are integer-valued JavaScript
      numbers; they are represented by [Z].  [plotLine] is written twice:
      over the integers, and in module [Binary64] with every sum, difference
      and product rounded as a double rounds it.  The two agree as long as
      the arguments are at most 2^50 in magnitude ([plotLine_exact]), which
      covers every grid coordinate; from 2^53 on they differ.
    - Numbers that need not be integers (the canvas dimension, the draws of
      [Math.random], the brightness arithmetic) are rationals [Q].  Module
      [Binary64] re-evaluates the brightness arithmetic in IEEE doubles.
    - An uncaught exception is the result [Throw]; the only exception this
      program can raise is a [TypeError] (a property read on [undefined]).
    - [while] loops take a fuel argument; [None] means the loop was still
      running when the fuel ran out. *)

From Stdlib Require Import ZArith QArith Qround Qminmax List String Ascii Bool Lia.
From Stdlib Require Import Numbers.DecimalString Floats.
Import ListNotations.

#[local] Open Scope Z_scope.

(** ** Results of effectful code *)

Inductive exn : Type := TypeError.

Inductive result (A : Type) : Type :=
| Ok (a : A)
| Throw (e : exn).

Arguments Ok {A} a.
Arguments Throw {A} e.

Definition bind {A B : Type} (r : result A) (k : A -> result B) : result B :=
  match r with
  | Ok a => k a
  | Throw e => Throw e
  end.

Notation "x <- r ;; k" := (bind r (fun x => k))
  (at level 61, r at next level, right associativity).

(** ** plotLine

    The loop of [plotLine] is the same in every version of the script.  It is
    written once, over the effect of [changeCellColor] on an arbitrary state
    [St].  The arithmetic here is that of the integers, which is the
    arithmetic of the script as long as no result needs more than 53 bits;
    [Binary64.plotLine] below is the same function with the rounding of
    doubles. *)

Section PlotLine.
Context {St : Type}.
Variable changeCellColor : Z -> Z -> St -> result St.

Fixpoint plotLine_loop (fuel : nat) (x1 y1 dx dy sx sy : Z)
         (x0 y0 error : Z) (s : St) : option (result St) :=
  match fuel with
  | O => None
  | S fuel' =>
      match changeCellColor x0 y0 s with
      | Throw e => Some (Throw e)
      | Ok s =>
          if (x0 =? x1) && (y0 =? y1) then Some (Ok s)
          else
            let e2 := 2 * error in
            let second_if (x0 error : Z) :=
              if e2 <=? dx then
                if y0 =? y1 then Some (Ok s)
                else plotLine_loop fuel' x1 y1 dx dy sx sy
                                   x0 (y0 + sy) (error + dx) s
              else plotLine_loop fuel' x1 y1 dx dy sx sy x0 y0 error s in
            if e2 >=? dy then
              if x0 =? x1 then Some (Ok s)
              else second_if (x0 + sx) (error + dy)
            else second_if x0 error
      end
  end.

Definition plotLine (fuel : nat) (x0 y0 x1 y1 : Z) (s : St)
  : option (result St) :=
  let dx := Z.abs (x1 - x0) in
  let sx := if x0 <? x1 then 1 else -1 in
  let dy := - Z.abs (y1 - y0) in
  let sy := if y0 <? y1 then 1 else -1 in
  let error := dx + dy in
  plotLine_loop fuel x1 y1 dx dy sx sy x0 y0 error s.

(** Calling [changeCellColor] on each cell of a list, in order, stopping at
    the first exception. *)
Fixpoint touch_all (cells : list (Z * Z)) (s : St) : result St :=
  match cells with
  | [] => Ok s
  | (x, y) :: rest =>
      match changeCellColor x y s with
      | Ok s' => touch_all rest s'
      | Throw e => Throw e
      end
  end.
End PlotLine.

(** The order of the [changeCellColor] calls: the state is the list of the
    calls made so far. *)
Definition record_call (x y : Z) (calls : list (Z * Z)) : result (list (Z * Z)) :=
  Ok (calls ++ [(x, y)]).

Definition plotLine_calls (fuel : nat) (x0 y0 x1 y1 : Z)
  : option (result (list (Z * Z))) :=
  plotLine record_call fuel x0 y0 x1 y1 [].

Definition adjacent8 (p q : Z * Z) : Prop :=
  Z.abs (fst q - fst p) <= 1 /\ Z.abs (snd q - snd p) <= 1.

Fixpoint chain8 (cells : list (Z * Z)) : Prop :=
  match cells with
  | p :: (q :: _) as rest => adjacent8 p q /\ chain8 rest
  | _ => True
  end.

(** The bound of the specification, [max(|x1-x0|,|y1-y0|)+1]. *)
Definition line_bound (x0 y0 x1 y1 : Z) : nat :=
  S (Z.to_nat (Z.max (Z.abs (x1 - x0)) (Z.abs (y1 - y0)))).

Definition valid_coord (dimension x y : Z) : Prop :=
  0 <= x < dimension /\ 0 <= y < dimension.

(** The cells between the two ends of a line, on each axis. *)
Definition in_box (x0 y0 x1 y1 : Z) (c : Z * Z) : Prop :=
  Z.min x0 x1 <= fst c <= Z.max x0 x1 /\
  Z.min y0 y1 <= snd c <= Z.max y0 y1.

(** The loop invariant of [plotLine], for a call with absolute distances
    [dx] and [ady]: [rx] and [ry] are the numbers of steps still to make on
    each axis.  The last two conjuncts say that the minor axis never runs
    ahead of the major one. *)
Definition line_inv (dx ady rx ry : Z) : Prop :=
  0 <= rx <= dx /\ 0 <= ry <= ady /\
  (ady <= dx -> 2 * (ry * dx) <= 2 * (rx * ady) + dx) /\
  (dx <= ady -> 2 * (rx * ady) <= 2 * (ry * dx) + ady).

(** The value of the variable [error] when [rx] and [ry] steps remain. *)
Definition error_at (dx ady rx ry : Z) : Z :=
  (ady - ry + 1) * dx - (dx - rx + 1) * ady.

(** ** Numbers

    [Number(prompt(...))] can be any JavaScript number.  [NaN] is what a
    non-numeric answer converts to. *)

Inductive number : Type :=
| NaN
| Infinity (negative : bool)
| Num (q : Q).

(** [!v]: a number is falsy when it is [NaN] or zero. *)
Definition js_not (v : number) : bool :=
  match v with
  | NaN => true
  | Infinity _ => false
  | Num q => Qeq_bool q 0
  end.

(** [v > bound] and [v < bound]; every comparison with [NaN] is false. *)
Definition js_gt (v : number) (bound : Q) : bool :=
  match v with
  | NaN => false
  | Infinity negative => negb negative
  | Num q => negb (Qle_bool q bound)
  end.

Definition js_lt (v : number) (bound : Q) : bool :=
  match v with
  | NaN => false
  | Infinity negative => negative
  | Num q => negb (Qle_bool bound q)
  end.

(** [Math.trunc] on rationals, and [a % b]: the remainder has the sign of the
    dividend; [None] stands for [NaN], the result when [b] is zero. *)
Definition Qtrunc (q : Q) : Z :=
  if Qle_bool 0 q then Qfloor q else Qceiling q.

Definition js_rem (a b : Q) : option Q :=
  if Qeq_bool b 0 then None
  else Some (a - b * inject_Z (Qtrunc (a / b)))%Q.

(** [clamp(value, min, max)], written with [Math.min] and [Math.max]. *)
Definition clamp (value min max : Q) : Q :=
  Qmin (Qmax value min) max.

(** ** Text *)

Definition is_digit (c : ascii) : bool :=
  ((48 <=? nat_of_ascii c) && (nat_of_ascii c <=? 57))%nat.

Definition flush_run (run : string) : list string :=
  match run with
  | EmptyString => []
  | _ => [run]
  end.

(** The matches of [text.matchAll(/\d+/g)]: the maximal runs of decimal
    digits, from left to right.  [run] is the run being read. *)
Fixpoint matchAll_digits_from (text run : string) : list string :=
  match text with
  | EmptyString => flush_run run
  | String c rest =>
      if is_digit c
      then matchAll_digits_from rest (run ++ String c EmptyString)
      else flush_run run ++ matchAll_digits_from rest EmptyString
  end.

Definition matchAll_digits (text : string) : list string :=
  matchAll_digits_from text EmptyString.

(** [Number(digits)] for a run of decimal digits. *)
Fixpoint Number_of_digits_from (digits : string) (value : Z) : Z :=
  match digits with
  | EmptyString => value
  | String c rest =>
      Number_of_digits_from rest (10 * value + (Z.of_nat (nat_of_ascii c) - 48))
  end.

Definition Number_of_digits (digits : string) : Z :=
  Number_of_digits_from digits 0.

(** The text of an integer inside a template literal. *)
Definition Z_to_string (z : Z) : string :=
  NilZero.string_of_int (Z.to_int z).

(** ** Colours *)

Record RGB : Type := mkRGB { r : Z; g : Z; b : Z }.

(** The variable [color] of [changeCellColor] holds either the string read
    from the style or a colour object. *)
Inductive color_value : Type :=
| ColorString (text : string)
| ColorObject (rgb : RGB).

(** [${color.r}] and the like: a string has no such property, and
    [undefined] is printed as such. *)
Definition channel_text (color : color_value) (channel : RGB -> Z) : string :=
  match color with
  | ColorString _ => "undefined"
  | ColorObject rgb => Z_to_string (channel rgb)
  end.

(** ** The style of a cell, as the browser keeps it

    Assigning to [style.backgroundColor] parses the text as a CSS colour; a
    text that is not one is ignored and the property keeps its value.  Only
    the comma-separated [rgb(...)] form with integer components is modelled,
    which is the only form the scripts write.  The browser clamps every
    component into [0,255] and reports the colour back as
    [rgb(R, G, B)]. *)

Fixpoint skip_spaces (s : string) : string :=
  match s with
  | String " " rest => skip_spaces rest
  | _ => s
  end.

Fixpoint take_digits (s : string) : string * string :=
  match s with
  | String c rest =>
      if is_digit c
      then let (digits, tail) := take_digits rest in (String c digits, tail)
      else (EmptyString, s)
  | EmptyString => (EmptyString, EmptyString)
  end.

Definition css_integer (s : string) : option (Z * string) :=
  let (negative, unsigned) :=
    match s with
    | String "-" rest => (true, rest)
    | String "+" rest => (false, rest)
    | _ => (false, s)
    end in
  let (digits, tail) := take_digits unsigned in
  match digits with
  | EmptyString => None
  | _ => let value := Number_of_digits digits in
         Some (if negative then - value else value, tail)
  end.

Definition css_expect (c : ascii) (s : string) : option string :=
  match skip_spaces s with
  | String c' rest => if Ascii.eqb c c' then Some (skip_spaces rest) else None
  | EmptyString => None
  end.

Definition css_byte (z : Z) : Z := Z.max 0 (Z.min 255 z).

Definition css_parse_rgb (text : string) : option RGB :=
  match skip_spaces text with
  | String "r" (String "g" (String "b" (String "(" body))) =>
      match css_integer (skip_spaces body) with
      | None => None
      | Some (red, s1) =>
          match css_expect "," s1 with
          | None => None
          | Some s2 =>
              match css_integer s2 with
              | None => None
              | Some (green, s3) =>
                  match css_expect "," s3 with
                  | None => None
                  | Some s4 =>
                      match css_integer s4 with
                      | None => None
                      | Some (blue, s5) =>
                          match css_expect ")" s5 with
                          | Some EmptyString =>
                              Some (mkRGB (css_byte red) (css_byte green)
                                          (css_byte blue))
                          | _ => None
                          end
                      end
                  end
              end
          end
      end
  | _ => None
  end.

Definition css_serialize (c : RGB) : string :=
  ("rgb(" ++ Z_to_string (r c) ++ ", " ++ Z_to_string (g c) ++ ", "
          ++ Z_to_string (b c) ++ ")")%string.

(** [style.backgroundColor = text], given the value [old] of the property. *)
Definition style_set_backgroundColor (old text : string) : string :=
  match text with
  | EmptyString => EmptyString
  | _ => match css_parse_rgb text with
         | Some c => css_serialize c
         | None => old
         end
  end.

(** ** The page *)

(** A cell of the canvas: its [data-x] and [data-y] attributes and the
    [backgroundColor] of its style, the empty string when none is set. *)
Record cell : Type := mkCell {
  data_x : Z;
  data_y : Z;
  backgroundColor : string
}.

(** The globals of the script and the parts of the document it uses.
    [random] lists the results of the successive calls of [Math.random];
    [drawn] counts the calls made so far. *)
Record page : Type := mkPage {
  canvasDimension : Q;
  childNodes : list cell;
  prevPos : option (Z * Z);
  randomColor_checked : bool;
  darkenColor_checked : bool;
  random : nat -> Q;
  drawn : nat
}.

Definition set_childNodes (nodes : list cell) (p : page) : page :=
  mkPage (canvasDimension p) nodes (prevPos p) (randomColor_checked p)
         (darkenColor_checked p) (random p) (drawn p).

Definition set_prevPos (pos : option (Z * Z)) (p : page) : page :=
  mkPage (canvasDimension p) (childNodes p) pos (randomColor_checked p)
         (darkenColor_checked p) (random p) (drawn p).

Definition set_canvasDimension (dimension : Q) (p : page) : page :=
  mkPage dimension (childNodes p) (prevPos p) (randomColor_checked p)
         (darkenColor_checked p) (random p) (drawn p).

Definition set_drawn (count : nat) (p : page) : page :=
  mkPage (canvasDimension p) (childNodes p) (prevPos p) (randomColor_checked p)
         (darkenColor_checked p) (random p) count.

(** [y * canvasDimension + Math.floor(x % canvasDimension)]; [None] when the
    result is [NaN]. *)
Definition cell_index (canvasDimension : Q) (x y : Z) : option Q :=
  match js_rem (inject_Z x) canvasDimension with
  | None => None
  | Some m => Some (inject_Z y * canvasDimension + inject_Z (Qfloor m))%Q
  end.

(** [nodes[index]]: [undefined] ([None]) unless the index is an integer that
    names an element.  The position is returned with the node. *)
Definition node_at (nodes : list cell) (index : option Q) : option (nat * cell) :=
  match index with
  | None => None
  | Some q =>
      let i := Qfloor q in
      if Qeq_bool q (inject_Z i) && (0 <=? i)
      then match nth_error nodes (Z.to_nat i) with
           | Some c => Some (Z.to_nat i, c)
           | None => None
           end
      else None
  end.

(** The assignment [cell.style.backgroundColor = text] on node [i]. *)
Fixpoint assign_backgroundColor (nodes : list cell) (i : nat) (text : string)
  : list cell :=
  match nodes, i with
  | [], _ => []
  | c :: rest, O =>
      mkCell (data_x c) (data_y c)
             (style_set_backgroundColor (backgroundColor c) text) :: rest
  | c :: rest, S i' => c :: assign_backgroundColor rest i' text
  end.

(** [Number(colorValues[i][0])]: reading [[0]] of a missing match throws. *)
Definition match_value (colorValues : list string) (i : nat) : result Z :=
  match nth_error colorValues i with
  | Some digits => Ok (Number_of_digits digits)
  | None => Throw TypeError
  end.

(** [rgbCSSColorToRGB]; [Ok None] is the result [undefined]. *)
Definition rgbCSSColorToRGB (cssColor : string) : result (option RGB) :=
  match cssColor with
  | EmptyString => Ok None
  | _ =>
      let colorValues := matchAll_digits cssColor in
      red <- match_value colorValues 0 ;;
      green <- match_value colorValues 1 ;;
      blue <- match_value colorValues 2 ;;
      Ok (Some (mkRGB red green blue))
  end.

(** The cell that [generateCanvasCells] creates at position [index].  The
    loop body only runs when [canvasDimension] is not zero, so the remainder
    is a number. *)
Definition new_cell (canvasDimension : Q) (index : nat) : cell :=
  let i := inject_Z (Z.of_nat index) in
  let x := match js_rem i canvasDimension with
           | Some m => Qfloor m
           | None => 0
           end in
  let y := Qfloor (i / canvasDimension) in
  mkCell x y EmptyString.

(** The cells created by the loop
    [for (index = 0; index < canvasDimension * canvasDimension; index++)]. *)
Definition new_cells (canvasDimension : Q) : list cell :=
  map (new_cell canvasDimension)
      (seq 0 (Z.to_nat (Qceiling (canvasDimension * canvasDimension)))).

(** The test of the prompt loop,
    [!newDimension || newDimension > 100 || newDimension < 0]. *)
Definition invalid_dimension (newDimension : number) : bool :=
  js_not newDimension || js_gt newDimension 100 || js_lt newDimension 0.

(** The prompt loop of [resetCanvas].  [newDimension] starts [undefined], so
    the first test succeeds and the loop begins with a prompt.  [answers k]
    is the number [Number(prompt(...))] of the prompt number [k]; the result
    is the accepted number and the count of prompts shown. *)
Fixpoint ask_dimension (fuel : nat) (answers : nat -> number) (asked : nat)
  : option (number * nat) :=
  match fuel with
  | O => None
  | S fuel' =>
      let newDimension := answers asked in
      if invalid_dimension newDimension
      then ask_dimension fuel' answers (S asked)
      else Some (newDimension, S asked)
  end.

(** *** script.js *)

Module Script.

Definition getRandomColor (random : nat -> Q) (drawn : nat) : RGB :=
  mkRGB (Qfloor (random drawn * 256))
        (Qfloor (random (S drawn) * 256))
        (Qfloor (random (S (S drawn)) * 256)).

Definition increaseColorBrightness (color : RGB) (percent : Q) : RGB :=
  let redAmount := (inject_Z (r color) / 256)%Q in
  let greenAmount := (inject_Z (g color) / 256)%Q in
  let blueAmount := (inject_Z (b color) / 256)%Q in
  let percent := (percent / 100)%Q in
  mkRGB (Qfloor (clamp ((redAmount + percent) * 256) 0 256))
        (Qfloor (clamp ((greenAmount + percent) * 256) 0 256))
        (Qfloor (clamp ((blueAmount + percent) * 256) 0 256)).

(** The template [`rgb(${color.r},${color.b},${color.g})`]. *)
Definition color_text (color : color_value) : string :=
  ("rgb(" ++ channel_text color r ++ "," ++ channel_text color b ++ ","
          ++ channel_text color g ++ ")")%string.

Definition changeCellColor (x y : Z) (p : page) : result page :=
  let index := cell_index (canvasDimension p) x y in
  match node_at (childNodes p) index with
  | None => Throw TypeError
  | Some (i, cell) =>
      let color := backgroundColor cell in
      chosen <-
        match color with
        | EmptyString =>
            if randomColor_checked p
            then Ok (ColorObject (getRandomColor (random p) (drawn p)),
                     (drawn p + 3)%nat)
            else Ok (ColorObject (mkRGB 240 240 240), drawn p)
        | _ =>
            if darkenColor_checked p
            then parsed <- rgbCSSColorToRGB color ;;
                 match parsed with
                 | Some rgb =>
                     Ok (ColorObject (increaseColorBrightness rgb (-10)),
                         drawn p)
                 | None => Throw TypeError
                 end
            else Ok (ColorString color, drawn p)
        end ;;
      Ok (set_drawn (snd chosen)
            (set_childNodes
               (assign_backgroundColor (childNodes p) i
                                       (color_text (fst chosen))) p))
  end.

Definition mouseLeave (target : cell) (p : page) : page :=
  set_prevPos (Some (data_x target, data_y target)) p.

Definition mouseEnter (fuel : nat) (target : cell) (p : page)
  : option (result page) :=
  let thisX := data_x target in
  let thisY := data_y target in
  match prevPos p with
  | None => Some (changeCellColor thisX thisY p)
  | Some (prevX, prevY) =>
      plotLine changeCellColor fuel prevX prevY thisX thisY p
  end.

(** The listener that [window.onload] puts on the canvas. *)
Definition canvas_mouseleave (p : page) : page :=
  set_prevPos None p.

Definition generateCanvasCells (p : page) : page :=
  set_childNodes (childNodes p ++ new_cells (canvasDimension p)) p.

(** [None]: the prompt is still open when the fuel runs out.  The loop
    leaves with a finite number only ([invalid_dimension_finite]). *)
Definition resetCanvas (fuel : nat) (answers : nat -> number) (p : page)
  : option page :=
  match ask_dimension fuel answers 0 with
  | Some (Num newDimension, _) =>
      Some (generateCanvasCells
              (set_childNodes [] (set_canvasDimension newDimension p)))
  | _ => None
  end.

End Script.

(** *** The variant with [startPainting] *)

Module Variant.

Definition generateCells (p : page) : page :=
  set_childNodes (new_cells (canvasDimension p)) p.

(** [startPainting] declares a new [prevPos], [undefined], for the
    listeners it puts on the cells now in the canvas. *)
Definition startPainting (p : page) : page :=
  set_prevPos None p.

Definition resetCanvas (fuel : nat) (answers : nat -> number) (p : page)
  : option page :=
  match ask_dimension fuel answers 0 with
  | Some (Num newDimension, _) =>
      Some (startPainting (generateCells (set_canvasDimension newDimension p)))
  | _ => None
  end.

Definition getRandomColor (random : nat -> Q) (drawn : nat) : RGB :=
  mkRGB (Qfloor (random drawn * 255))
        (Qfloor (random (S drawn) * 255))
        (Qfloor (random (S (S drawn)) * 255)).

Definition changeColorBrightness (color : RGB) (percent : Q) : RGB :=
  let redAmount := (inject_Z (r color) / 255)%Q in
  let greenAmount := (inject_Z (g color) / 255)%Q in
  let blueAmount := (inject_Z (b color) / 255)%Q in
  let percent := (percent / 100)%Q in
  mkRGB (Qfloor (clamp ((redAmount + percent) * 255) 0 255))
        (Qfloor (clamp ((greenAmount + percent) * 255) 0 255))
        (Qfloor (clamp ((blueAmount + percent) * 255) 0 255)).

(** The template [`rgb(${color.r},${color.g},${color.b})`]. *)
Definition color_text (color : color_value) : string :=
  ("rgb(" ++ channel_text color r ++ "," ++ channel_text color g ++ ","
          ++ channel_text color b ++ ")")%string.

Definition changeCellColor (x y : Z) (p : page) : result page :=
  let index := cell_index (canvasDimension p) x y in
  match node_at (childNodes p) index with
  | None => Throw TypeError
  | Some (i, cell) =>
      let color := backgroundColor cell in
      chosen <-
        match color with
        | EmptyString =>
            if randomColor_checked p
            then Ok (ColorObject (getRandomColor (random p) (drawn p)),
                     (drawn p + 3)%nat)
            else Ok (ColorObject (mkRGB 240 240 240), drawn p)
        | _ =>
            if darkenColor_checked p
            then parsed <- rgbCSSColorToRGB color ;;
                 match parsed with
                 | Some rgb =>
                     Ok (ColorObject (changeColorBrightness rgb (-10)),
                         drawn p)
                 | None => Throw TypeError
                 end
            else Ok (ColorString color, drawn p)
        end ;;
      Ok (set_drawn (snd chosen)
            (set_childNodes
               (assign_backgroundColor (childNodes p) i
                                       (color_text (fst chosen))) p))
  end.

Definition mouseLeave (target : cell) (p : page) : page :=
  set_prevPos (Some (data_x target, data_y target)) p.

Definition mouseEnter (fuel : nat) (target : cell) (p : page)
  : option (result page) :=
  let thisX := data_x target in
  let thisY := data_y target in
  match prevPos p with
  | None => Some (changeCellColor thisX thisY p)
  | Some (prevX, prevY) =>
      plotLine changeCellColor fuel prevX prevY thisX thisY p
  end.

Definition canvas_mouseleave (p : page) : page :=
  set_prevPos None p.

End Variant.

(** ** The brightness arithmetic in IEEE doubles

    The same expressions as [increaseColorBrightness] and
    [changeColorBrightness], evaluated on binary64 numbers with their
    rounding, for one channel. *)

Module Binary64.

(** The double nearest to an integer. *)
Definition of_Z (z : Z) : float :=
  SF2Prim (binary_normalize prec emax z 0 false).

Definition Math_max (a b : float) : float :=
  if is_nan a || is_nan b then nan
  else if (a <? b)%float then b
  else if (b <? a)%float then a
  else if get_sign a then b else a.

Definition Math_min (a b : float) : float :=
  if is_nan a || is_nan b then nan
  else if (a <? b)%float then a
  else if (b <? a)%float then b
  else if get_sign a then a else b.

Definition clamp (value min max : float) : float :=
  Math_min (Math_max value min) max.

Definition Math_floor (v : float) : float :=
  match Prim2SF v with
  | S754_finite negative m e =>
      if 0 <=? e then v
      else of_Z (Z.shiftr (if negative then Z.neg m else Z.pos m) (- e))
  | _ => v
  end.

(** The integer that a double is, if it is one. *)
Definition integer_value (v : float) : option Z :=
  match Prim2SF v with
  | S754_zero _ => Some 0
  | S754_finite negative m e =>
      let n := if negative then Z.neg m else Z.pos m in
      if 0 <=? e then Some (Z.shiftl n e)
      else if Z.shiftl (Z.shiftr n (- e)) (- e) =? n
           then Some (Z.shiftr n (- e))
           else None
  | _ => None
  end.

Definition increaseColorBrightness_channel (channel : Z) (percent : float)
  : float :=
  let amount := (of_Z channel / 256)%float in
  let percent := (percent / 100)%float in
  Math_floor (clamp ((amount + percent) * 256) 0 256).

Definition changeColorBrightness_channel (channel : Z) (percent : float)
  : float :=
  let amount := (of_Z channel / 255)%float in
  let percent := (percent / 100)%float in
  Math_floor (clamp ((amount + percent) * 255) 0 255).

(** *** Integers in doubles

    The coordinates and the error term of [plotLine] are doubles that hold
    integers.  The sum, the difference or the product of two such doubles is
    the exact integer result rounded to the nearest double, a tie going to
    the double whose significand is even.  [nearest z] is that double, as the
    integer it holds: every integer of magnitude up to 2^53 is a double, and
    above 2^53 the doubles are [2^e] apart, for the [e] that leaves 53
    significant bits.  (A result beyond the largest finite double, near
    2^1024, would be an infinity; no such result occurs below.) *)
Definition nearest (z : Z) : Z :=
  let a := Z.abs z in
  let e := Z.log2 a - 52 in
  if e <=? 0 then z
  else
    let q := Z.shiftr a e in
    let rest := a - Z.shiftl q e in
    let half := Z.shiftl 1 (e - 1) in
    let q' := if (rest <? half) || ((rest =? half) && Z.even q)
              then q else q + 1 in
    Z.sgn z * Z.shiftl q' e.

(** [plotLine] with the arithmetic of doubles: [x1 - x0], [y1 - y0],
    [dx + dy], [2 * error], [error + dy], [x0 + sx], [error + dx] and
    [y0 + sy] are rounded; [Math.abs], the negation and the comparisons are
    exact.  The four arguments are doubles themselves, that is integers [z]
    with [nearest z = z]. *)
Section PlotLine.
Context {St : Type}.
Variable changeCellColor : Z -> Z -> St -> result St.

Fixpoint plotLine_loop (fuel : nat) (x1 y1 dx dy sx sy : Z)
         (x0 y0 error : Z) (s : St) : option (result St) :=
  match fuel with
  | O => None
  | S fuel' =>
      match changeCellColor x0 y0 s with
      | Throw e => Some (Throw e)
      | Ok s =>
          if (x0 =? x1) && (y0 =? y1) then Some (Ok s)
          else
            let e2 := nearest (2 * error) in
            let second_if (x0 error : Z) :=
              if e2 <=? dx then
                if y0 =? y1 then Some (Ok s)
                else plotLine_loop fuel' x1 y1 dx dy sx sy
                                   x0 (nearest (y0 + sy))
                                   (nearest (error + dx)) s
              else plotLine_loop fuel' x1 y1 dx dy sx sy x0 y0 error s in
            if e2 >=? dy then
              if x0 =? x1 then Some (Ok s)
              else second_if (nearest (x0 + sx)) (nearest (error + dy))
            else second_if x0 error
      end
  end.

Definition plotLine (fuel : nat) (x0 y0 x1 y1 : Z) (s : St)
  : option (result St) :=
  let dx := Z.abs (nearest (x1 - x0)) in
  let sx := if x0 <? x1 then 1 else -1 in
  let dy := - Z.abs (nearest (y1 - y0)) in
  let sy := if y0 <? y1 then 1 else -1 in
  let error := nearest (dx + dy) in
  plotLine_loop fuel x1 y1 dx dy sx sy x0 y0 error s.
End PlotLine.

End Binary64.

(** ** The words of the specification *)

(** The darkened channel of the specification:
    [clamp(channel/255 + (-10/100), 0, 1) * 255], floored, clamped into
    [[0,255]]. *)
Definition spec_darken_channel (channel : Z) : Z :=
  Z.max 0 (Z.min 255
    (Qfloor (clamp (inject_Z channel / 255 + (-10) / 100) 0 1 * 255))).

(** A dimension that the specification calls valid: an integer in
    [(0,100]]. *)
Definition spec_valid_dimension (v : number) : Prop :=
  exists (q : Q) (z : Z), v = Num q /\ (q == inject_Z z)%Q /\ 0 < z <= 100.

Definition channel_range (c : RGB) : Prop :=
  0 <= r c <= 255 /\ 0 <= g c <= 255 /\ 0 <= b c <= 255.

Definition unit_draws (random : nat -> Q) : Prop :=
  forall n, (0 <= random n)%Q /\ (random n < 1)%Q.

(** ** Sample pages *)

Definition sample_random (n : nat) : Q :=
  (inject_Z (Z.of_nat (n mod 4)) / 4)%Q.

(** A page whose canvas holds cells with the given colours. *)
Definition sample_page (dimension : Z) (colors : list string)
           (pos : option (Z * Z)) (randomChecked darkenChecked : bool) : page :=
  mkPage (inject_Z dimension)
         (map (fun c => mkCell (fst (fst c)) (snd (fst c)) (snd c))
              (combine (map (fun c => (data_x c, data_y c))
                            (new_cells (inject_Z dimension)))
                       colors))
         pos randomChecked darkenChecked sample_random 0.

(** The canvas holds the cells that [generateCanvasCells] makes for the
    integer dimension [d], whatever their colours. *)
Definition canvas_of (d : Z) (p : page) : Prop :=
  canvasDimension p = inject_Z d /\
  map (fun c => (data_x c, data_y c)) (childNodes p)
  = map (fun c => (data_x c, data_y c)) (new_cells (inject_Z d)).

(** A source of draws that always gives [u], and a prompt that always gets
    the answer [v]. *)
Definition constant_draws (u : Q) : nat -> Q := fun _ => u.

Definition constant_answer (v : number) : nat -> number := fun _ => v.

(** The page after [window.onload] of [script.js], with the pointer last
    seen leaving the cell [pos]. *)
Definition loaded_page (pos : option (Z * Z)) : page :=
  Script.generateCanvasCells
    (mkPage 16 [] pos false false (constant_draws 0) 0).

(** Texts made of decimal digits only, and texts that begin with one. *)
Fixpoint all_digits (s : string) : bool :=
  match s with
  | EmptyString => true
  | String c rest => is_digit c && all_digits rest
  end.

Definition starts_with_digit (s : string) : bool :=
  match s with
  | EmptyString => false
  | String c _ => is_digit c
  end.

(** The colour that the darken step computes from [c]. *)
Definition darker (c : RGB) : RGB :=
  mkRGB (Z.max (r c - 26) 0) (Z.max (g c - 26) 0) (Z.max (b c - 26) 0).

(* ================================================================= *)
(** * Properties *)

(** ** The rasterizer *)

Example plotLine_horizontal :
  plotLine_calls 6 0 0 5 0 = Some (Ok [(0,0);(1,0);(2,0);(3,0);(4,0);(5,0)]).
Proof. reflexivity. Qed.

Example plotLine_diagonal :
  plotLine_calls 4 0 0 3 3 = Some (Ok [(0,0);(1,1);(2,2);(3,3)]).
Proof. reflexivity. Qed.

Example plotLine_slope_half :
  plotLine_calls 5 0 0 4 2 = Some (Ok [(0,0);(1,1);(2,1);(3,2);(4,2)]).
Proof. reflexivity. Qed.

Lemma touch_all_cons {St : Type} (touch : Z -> Z -> St -> result St)
      (x y : Z) (rest : list (Z * Z)) (s : St) :
  touch_all touch ((x, y) :: rest) s =
  match touch x y s with
  | Ok s' => touch_all touch rest s'
  | Throw e => Throw e
  end.
Proof. reflexivity. Qed.

Section LoopInvariant.
(** The constants of one call: the target, the absolute distances and the
    step directions. *)
Variables x1 y1 dx ady sx sy : Z.
Hypothesis dx_nonneg : 0 <= dx.
Hypothesis ady_nonneg : 0 <= ady.
Hypothesis sx_unit : sx = 1 \/ sx = -1.
Hypothesis sy_unit : sy = 1 \/ sy = -1.

Lemma line_inv_major (rx ry : Z) :
  line_inv dx ady rx ry ->
  (ady <= dx -> ry <= rx) /\ (dx <= ady -> rx <= ry).
Proof.
  unfold line_inv. intros (Hx & Hy & Ix & Iy). split; intros Hm.
  - specialize (Ix Hm). nia.
  - specialize (Iy Hm). nia.
Qed.

(** One iteration away from the target: the branch conditions decide the
    remaining distances, the invariant is kept, and the larger remaining
    distance drops by exactly one.  Neither inner [break] can fire. *)
Lemma line_inv_step (rx ry : Z) :
  line_inv dx ady rx ry ->
  0 < Z.max rx ry ->
  let e2 := 2 * error_at dx ady rx ry in
  let rx' := if e2 >=? - ady then rx - 1 else rx in
  let ry' := if e2 <=? dx then ry - 1 else ry in
  line_inv dx ady rx' ry' /\
  Z.max rx' ry' = Z.max rx ry - 1 /\
  ((e2 >=? - ady) = true -> rx <> 0) /\
  ((e2 <=? dx) = true -> ry <> 0).
Proof.
  intros Hinv Hpos.
  destruct (line_inv_major rx ry Hinv) as [Mx My].
  unfold line_inv in *. destruct Hinv as (Hx & Hy & Ix & Iy).
  cbv zeta. unfold error_at.
  set (A := rx * ady) in *. set (B := ry * dx) in *.
  assert (HA : 0 <= A <= dx * ady) by (unfold A; nia).
  assert (HB : 0 <= B <= dx * ady) by (unfold B; nia).
  assert (HA0 : rx = 0 -> A = 0) by (unfold A; nia).
  assert (HB0 : ry = 0 -> B = 0) by (unfold B; nia).
  assert (HA1 : 0 < rx -> ady <= A) by (unfold A; nia).
  assert (HB1 : 0 < ry -> dx <= B) by (unfold B; nia).
  replace ((ady - ry + 1) * dx - (dx - rx + 1) * ady)
    with (dx - ady + A - B) by (unfold A, B; ring).
  replace ((rx - 1) * ady) with (A - ady) in * by (unfold A; ring).
  destruct (Z.geb_spec (2 * (dx - ady + A - B)) (- ady)) as [Cx | Cx];
    destruct (Z.leb_spec (2 * (dx - ady + A - B)) dx) as [Cy | Cy].
  all: replace ((rx - 1) * ady) with (A - ady) by (unfold A; ring).
  all: replace ((ry - 1) * dx) with (B - dx) by (unfold B; ring).
  all: fold A; fold B.
  all: destruct (Z.le_ge_cases ady dx) as [Hm | Hm].
  all: try (specialize (Ix Hm)); try (specialize (Mx Hm)).
  all: try (specialize (Iy Hm)); try (specialize (My Hm)).
  all: repeat split; try intros; try discriminate; try lia.
  all: unfold A, B in *; clear HA HB HA0 HB0 HA1 HB1; nia.
Qed.

Lemma at_target (v1 s r : Z) :
  s = 1 \/ s = -1 -> ((v1 - s * r =? v1) = true <-> r = 0).
Proof. intros [-> | ->]; rewrite Z.eqb_eq; lia. Qed.

(** From any state that satisfies the invariant, the loop makes exactly
    [max rx ry + 1] calls, on a chain of neighbouring cells that ends at the
    target, whatever [changeCellColor] does to the state. *)
Lemma plotLine_loop_cells (n : nat) :
  forall rx ry,
    Z.of_nat n = Z.max rx ry ->
    line_inv dx ady rx ry ->
    exists cells,
      List.length cells = S n /\
      hd_error cells = Some (x1 - sx * rx, y1 - sy * ry) /\
      last cells (x1, y1) = (x1, y1) /\
      chain8 cells /\
      Forall (fun c => exists rx' ry',
                  (0 <= rx' <= dx /\ 0 <= ry' <= ady) /\
                  c = (x1 - sx * rx', y1 - sy * ry')) cells /\
      forall (St : Type) (touch : Z -> Z -> St -> result St) fuel s,
        (n < fuel)%nat ->
        plotLine_loop touch fuel x1 y1 dx (- ady) sx sy
                      (x1 - sx * rx) (y1 - sy * ry) (error_at dx ady rx ry) s
        = Some (touch_all touch cells s).
Proof.
  induction n as [| n IH]; intros rx ry Hn Hinv.
  - assert (rx = 0 /\ ry = 0) as [-> ->]
        by (unfold line_inv in Hinv; lia).
    exists [(x1 - sx * 0, y1 - sy * 0)].
    refine (conj eq_refl (conj eq_refl (conj _ (conj I (conj _ _))))).
    + simpl. f_equal; lia.
    + constructor; [| constructor]. exists 0, 0. repeat split; lia.
    + intros St touch [| fuel] s Hf; [lia |].
      simpl. destruct (touch _ _ s); [| reflexivity].
      replace (x1 - sx * 0) with x1 by lia.
      replace (y1 - sy * 0) with y1 by lia.
      now rewrite !Z.eqb_refl.
  - assert (Hpos : 0 < Z.max rx ry) by lia.
    destruct (line_inv_step rx ry Hinv Hpos) as (Hinv' & Hmax & Hbx & Hby).
    cbv zeta in Hinv', Hmax, Hbx, Hby.
    set (e2 := 2 * error_at dx ady rx ry) in *.
    set (rx' := if e2 >=? - ady then rx - 1 else rx) in *.
    set (ry' := if e2 <=? dx then ry - 1 else ry) in *.
    destruct (IH rx' ry' ltac:(lia) Hinv')
      as (cells & Hlen & Hhd & Hlast & Hchain & Hbox & Hrun).
    exists ((x1 - sx * rx, y1 - sy * ry) :: cells).
    assert (Hnext : adjacent8 (x1 - sx * rx, y1 - sy * ry)
                              (x1 - sx * rx', y1 - sy * ry')).
    { unfold adjacent8, rx', ry'; simpl.
      destruct (e2 >=? - ady), (e2 <=? dx), sx_unit, sy_unit; subst; lia. }
    assert (Hne : exists c rest, cells = c :: rest)
      by (destruct cells; [discriminate | eauto]).
    destruct Hne as (c & rest & ->).
    simpl in Hhd. injection Hhd as ->.
    refine (conj _ (conj eq_refl (conj Hlast (conj (conj Hnext Hchain)
                                                   (conj _ _))))).
    + simpl in *. now rewrite Hlen.
    + constructor; [| exact Hbox]. exists rx, ry.
      unfold line_inv in Hinv. repeat split; lia.
    + intros St touch [| fuel] s Hf; [lia |].
      rewrite touch_all_cons. cbn [plotLine_loop].
      destruct (touch _ _ s) as [s' | e]; [| reflexivity].
      assert (Hnot : (x1 - sx * rx =? x1) && (y1 - sy * ry =? y1) = false).
      { apply andb_false_iff.
        destruct (Z.eq_dec rx 0) as [-> | Hrx].
        - right. apply not_true_is_false. rewrite at_target by assumption. lia.
        - left. apply not_true_is_false. rewrite at_target by assumption. lia. }
      rewrite Hnot. cbv zeta. fold e2.
      rewrite <- (Hrun St touch fuel s' ltac:(lia)).
      unfold rx', ry'.
      destruct (e2 >=? - ady) eqn:Bx; destruct (e2 <=? dx) eqn:By.
      all: try (assert (Hx0 : (x1 - sx * rx =? x1) = false)
                 by (apply not_true_is_false; rewrite at_target by assumption;
                     auto);
                rewrite Hx0).
      all: try (assert (Hy0 : (y1 - sy * ry =? y1) = false)
                 by (apply not_true_is_false; rewrite at_target by assumption;
                     auto);
                rewrite Hy0).
      all: f_equal; unfold error_at; ring.
Qed.
End LoopInvariant.

Lemma last_default_irrelevant {A : Type} (l : list A) (d d' : A) :
  l <> [] -> last l d = last l d'.
Proof.
  induction l as [| a [| b l] IH]; intros Hne; try reflexivity.
  - contradiction.
  - change (last (b :: l) d = last (b :: l) d'). apply IH. discriminate.
Qed.

Lemma touch_all_record (cells calls : list (Z * Z)) :
  touch_all record_call cells calls = Ok (calls ++ cells).
Proof.
  revert calls. induction cells as [| [x y] cells IH]; intros calls.
  - simpl. now rewrite app_nil_r.
  - rewrite touch_all_cons. unfold record_call at 1.
    rewrite IH, <- app_assoc. reflexivity.
Qed.

(** The whole call: [plotLine] makes its calls on a fixed list of cells that
    depends on the four arguments only. *)
Lemma plotLine_cells (x0 y0 x1 y1 : Z) :
  exists cells,
    List.length cells = line_bound x0 y0 x1 y1 /\
    hd_error cells = Some (x0, y0) /\
    (forall d, last cells d = (x1, y1)) /\
    chain8 cells /\
    Forall (in_box x0 y0 x1 y1) cells /\
    forall (St : Type) (touch : Z -> Z -> St -> result St) (k : nat) (s : St),
      plotLine touch (line_bound x0 y0 x1 y1 + k) x0 y0 x1 y1 s
      = Some (touch_all touch cells s).
Proof.
  set (dx := Z.abs (x1 - x0)). set (ady := Z.abs (y1 - y0)).
  set (sx := if x0 <? x1 then 1 else -1).
  set (sy := if y0 <? y1 then 1 else -1).
  assert (Hdx : 0 <= dx) by apply Z.abs_nonneg.
  assert (Hady : 0 <= ady) by apply Z.abs_nonneg.
  assert (Hsx : sx = 1 \/ sx = -1) by (unfold sx; destruct (x0 <? x1); auto).
  assert (Hsy : sy = 1 \/ sy = -1) by (unfold sy; destruct (y0 <? y1); auto).
  assert (Hx0 : x0 = x1 - sx * dx)
    by (unfold sx, dx; destruct (Z.ltb_spec x0 x1); lia).
  assert (Hy0 : y0 = y1 - sy * ady)
    by (unfold sy, ady; destruct (Z.ltb_spec y0 y1); lia).
  assert (Hinv : line_inv dx ady dx ady) by (unfold line_inv; nia).
  destruct (plotLine_loop_cells x1 y1 dx ady sx sy Hdx Hady Hsx Hsy
              (Z.to_nat (Z.max dx ady)) dx ady ltac:(lia) Hinv)
    as (cells & Hlen & Hhd & Hlast & Hchain & Hbox & Hrun).
  exists cells.
  rewrite <- Hx0, <- Hy0 in Hhd, Hrun.
  refine (conj Hlen (conj Hhd (conj _ (conj Hchain (conj _ _))))).
  - intros d. rewrite <- Hlast. apply last_default_irrelevant.
    destruct cells; discriminate.
  - apply Forall_impl with (2 := Hbox).
    intros c (rx & ry & [Hrx Hry] & ->). unfold in_box; simpl.
    unfold sx, sy, dx, ady in *.
    destruct (Z.ltb_spec x0 x1), (Z.ltb_spec y0 y1); lia.
  - intros St touch k s. unfold plotLine. fold dx ady sx sy.
    replace (dx + - ady) with (error_at dx ady dx ady)
      by (unfold error_at; ring).
    apply Hrun. unfold line_bound. fold dx ady. lia.
Qed.

Lemma in_box_valid (dimension x0 y0 x1 y1 : Z) (c : Z * Z) :
  valid_coord dimension x0 y0 -> valid_coord dimension x1 y1 ->
  in_box x0 y0 x1 y1 c -> valid_coord dimension (fst c) (snd c).
Proof. unfold valid_coord, in_box. lia. Qed.

(** C1.  For valid grid coordinates [(x0,y0)] and [(x1,y1)], the calls that
    [plotLine] makes to [changeCellColor] form a sequence that starts at
    [(x0,y0)], ends at [(x1,y1)], moves between 8-adjacent cells and has at
    most [max(|x1-x0|,|y1-y0|)+1] elements; [plotLine(x,y,x,y)] calls it on
    [(x,y)] alone.  Every cell of the sequence is a valid grid coordinate. *)
Theorem plotLine_path (dimension x0 y0 x1 y1 : Z) :
  valid_coord dimension x0 y0 ->
  valid_coord dimension x1 y1 ->
  (exists cells,
      (forall k, plotLine_calls (line_bound x0 y0 x1 y1 + k) x0 y0 x1 y1
                 = Some (Ok cells)) /\
      hd_error cells = Some (x0, y0) /\
      (forall d, last cells d = (x1, y1)) /\
      chain8 cells /\
      (List.length cells <= line_bound x0 y0 x1 y1)%nat /\
      Forall (fun c => valid_coord dimension (fst c) (snd c)) cells) /\
  (forall k, plotLine_calls (S k) x0 y0 x0 y0 = Some (Ok [(x0, y0)])).
Proof.
  intros Hv0 Hv1. split.
  - destruct (plotLine_cells x0 y0 x1 y1)
      as (cells & Hlen & Hhd & Hlast & Hchain & Hbox & Hrun).
    exists cells.
    refine (conj _ (conj Hhd (conj Hlast (conj Hchain (conj _ _))))).
    + intros k. unfold plotLine_calls. rewrite Hrun.
      now rewrite touch_all_record.
    + lia.
    + apply Forall_impl with (2 := Hbox).
      intros c. now apply in_box_valid.
  - intros k. unfold plotLine_calls, plotLine. simpl.
    now rewrite !Z.eqb_refl.
Qed.

Lemma plotLine_path_witness :
  valid_coord 16 0 0 /\ valid_coord 16 4 2 /\
  (exists cells,
      (forall k, plotLine_calls (line_bound 0 0 4 2 + k) 0 0 4 2
                 = Some (Ok cells)) /\
      hd_error cells = Some (0, 0) /\
      (forall d, last cells d = (4, 2)) /\
      chain8 cells /\
      (List.length cells <= line_bound 0 0 4 2)%nat /\
      Forall (fun c => valid_coord 16 (fst c) (snd c)) cells) /\
  (forall k, plotLine_calls (S k) 0 0 0 0 = Some (Ok [(0, 0)])).
Proof.
  assert (H0 : valid_coord 16 0 0) by (unfold valid_coord; lia).
  assert (H1 : valid_coord 16 4 2) by (unfold valid_coord; lia).
  exact (conj H0 (conj H1 (plotLine_path 16 0 0 4 2 H0 H1))).
Defined.

(** ** The rasterizer in doubles *)

(** Every integer up to 2^53 in magnitude is a double. *)
Lemma nearest_exact (z : Z) :
  Z.abs z <= 2 ^ 53 -> Binary64.nearest z = z.
Proof.
  intros Hz. unfold Binary64.nearest. cbv zeta.
  destruct (Z.leb_spec (Z.log2 (Z.abs z) - 52) 0) as [He | He];
    [reflexivity |].
  assert (Hpos : 0 < Z.abs z).
  { destruct (Z.eq_dec (Z.abs z) 0) as [E | E]; [| lia].
    rewrite E in He. simpl in He. lia. }
  assert (Hbig : ~ Z.abs z < 2 ^ 53).
  { intros Hlt. apply (Z.log2_lt_pow2 _ _ Hpos) in Hlt. lia. }
  assert (Hcase : z = 9007199254740992 \/ z = -9007199254740992)
    by (change (2 ^ 53) with 9007199254740992 in *; lia).
  destruct Hcase as [-> | ->]; reflexivity.
Qed.

(** The rounding agrees with the conversion of an integer to a primitive
    double, and with the sum of primitive doubles, around 2^53. *)
Example nearest_binary64 :
  Binary64.integer_value (Binary64.of_Z 9007199254740993)
  = Some (Binary64.nearest 9007199254740993) /\
  Binary64.integer_value (Binary64.of_Z 9007199254740995)
  = Some (Binary64.nearest 9007199254740995) /\
  Binary64.integer_value (Binary64.of_Z (-9007199254740993))
  = Some (Binary64.nearest (-9007199254740993)) /\
  Binary64.integer_value (Binary64.of_Z 18014398509481990)
  = Some (Binary64.nearest 18014398509481990) /\
  Binary64.integer_value
    (Binary64.of_Z 9007199254740992 + Binary64.of_Z 1)%float
  = Some (Binary64.nearest (9007199254740992 + 1)) /\
  Binary64.nearest (9007199254740992 + 1) = 9007199254740992.
Proof. repeat split; vm_compute; reflexivity. Qed.

Section DoubleLoop.
Context {St : Type}.
Variable touch : Z -> Z -> St -> result St.
Variables x1 y1 dx ady sx sy : Z.
Hypothesis x1_small : Z.abs x1 <= 2 ^ 50.
Hypothesis y1_small : Z.abs y1 <= 2 ^ 50.
Hypothesis dx_small : 0 <= dx <= 2 ^ 51.
Hypothesis ady_small : 0 <= ady <= 2 ^ 51.
Hypothesis sx_unit : sx = 1 \/ sx = -1.
Hypothesis sy_unit : sy = 1 \/ sy = -1.

(** As long as the position is between its start and the target and the
    error term is between [-3/2 |dy|] and [3/2 dx], every result of the loop
    is below 2^53 and no rounding takes place. *)
Lemma plotLine_loop_exact (fuel : nat) :
  forall (x0 y0 error : Z) (s : St),
    Z.abs x0 <= 2 ^ 50 -> Z.abs y0 <= 2 ^ 50 ->
    (sx = 1 /\ x0 <= x1) \/ (sx = -1 /\ x1 <= x0) ->
    (sy = 1 /\ y0 <= y1) \/ (sy = -1 /\ y1 <= y0) ->
    - 3 * ady <= 2 * error <= 3 * dx ->
    Binary64.plotLine_loop touch fuel x1 y1 dx (- ady) sx sy x0 y0 error s
    = plotLine_loop touch fuel x1 y1 dx (- ady) sx sy x0 y0 error s.
Proof.
  change (2 ^ 50) with 1125899906842624 in *.
  change (2 ^ 51) with 2251799813685248 in *.
  induction fuel as [| fuel IH]; intros x0 y0 error s Hx Hy Tx Ty He;
    [reflexivity |].
  cbn [Binary64.plotLine_loop plotLine_loop].
  destruct (touch x0 y0 s) as [s' | e]; [| reflexivity].
  destruct ((x0 =? x1) && (y0 =? y1)); [reflexivity |].
  cbv zeta.
  assert (E2 : Binary64.nearest (2 * error) = 2 * error)
    by (apply nearest_exact; change (2 ^ 53) with 9007199254740992; lia).
  assert (Ex : Binary64.nearest (x0 + sx) = x0 + sx)
    by (apply nearest_exact; change (2 ^ 53) with 9007199254740992; lia).
  assert (Ey : Binary64.nearest (y0 + sy) = y0 + sy)
    by (apply nearest_exact; change (2 ^ 53) with 9007199254740992; lia).
  assert (Ed : Binary64.nearest (error + - ady) = error + - ady)
    by (apply nearest_exact; change (2 ^ 53) with 9007199254740992; lia).
  assert (Eu : Binary64.nearest (error + dx) = error + dx)
    by (apply nearest_exact; change (2 ^ 53) with 9007199254740992; lia).
  assert (Edu : Binary64.nearest (error + - ady + dx) = error + - ady + dx)
    by (apply nearest_exact; change (2 ^ 53) with 9007199254740992; lia).
  rewrite E2, Ex, Ey, Ed, Eu, Edu.
  destruct (Z.geb_spec (2 * error) (- ady)), (Z.eqb_spec x0 x1),
    (Z.leb_spec (2 * error) dx), (Z.eqb_spec y0 y1);
    try reflexivity; apply IH; lia.
Qed.
End DoubleLoop.

(** For arguments of magnitude at most 2^50 the rounding never acts:
    [plotLine] in doubles is [plotLine] over the integers. *)
Lemma plotLine_exact {St : Type} (touch : Z -> Z -> St -> result St)
      (fuel : nat) (x0 y0 x1 y1 : Z) (s : St) :
  Z.abs x0 <= 2 ^ 50 -> Z.abs y0 <= 2 ^ 50 ->
  Z.abs x1 <= 2 ^ 50 -> Z.abs y1 <= 2 ^ 50 ->
  Binary64.plotLine touch fuel x0 y0 x1 y1 s = plotLine touch fuel x0 y0 x1 y1 s.
Proof.
  intros Hx0 Hy0 Hx1 Hy1.
  unfold Binary64.plotLine, plotLine. cbv zeta.
  assert (B : 2 ^ 50 = 1125899906842624 /\ 2 ^ 51 = 2251799813685248 /\
              2 ^ 53 = 9007199254740992) by (repeat split; reflexivity).
  destruct B as (B50 & B51 & B53).
  rewrite (nearest_exact (x1 - x0)) by lia.
  rewrite (nearest_exact (y1 - y0)) by lia.
  rewrite (nearest_exact (Z.abs (x1 - x0) + - Z.abs (y1 - y0))) by lia.
  apply plotLine_loop_exact; try assumption; try lia.
  - destruct (x0 <? x1); auto.
  - destruct (y0 <? y1); auto.
  - destruct (Z.ltb_spec x0 x1); lia.
  - destruct (Z.ltb_spec y0 y1); lia.
Qed.

(** C2, as the code has it.  The coordinates are doubles.  For integer
    arguments of magnitude at most 2^50, which covers every grid coordinate,
    the loop of [plotLine] terminates: with [max(|x1-x0|,|y1-y0|)+1] units
    of fuel or more it returns, whatever [changeCellColor] does, after at
    most that many calls. *)
Theorem plotLine_terminates (x0 y0 x1 y1 : Z) :
  Z.abs x0 <= 2 ^ 50 -> Z.abs y0 <= 2 ^ 50 ->
  Z.abs x1 <= 2 ^ 50 -> Z.abs y1 <= 2 ^ 50 ->
  exists cells,
    (List.length cells <= line_bound x0 y0 x1 y1)%nat /\
    (forall k,
        Binary64.plotLine record_call (line_bound x0 y0 x1 y1 + k)
                          x0 y0 x1 y1 []
        = Some (Ok cells)) /\
    forall (St : Type) (changeCellColor : Z -> Z -> St -> result St)
           (k : nat) (s : St),
      Binary64.plotLine changeCellColor (line_bound x0 y0 x1 y1 + k)
                        x0 y0 x1 y1 s
      = Some (touch_all changeCellColor cells s).
Proof.
  intros Hx0 Hy0 Hx1 Hy1.
  destruct (plotLine_cells x0 y0 x1 y1)
    as (cells & Hlen & _ & _ & _ & _ & Hrun).
  exists cells. split; [lia |]. split.
  - intros k. rewrite plotLine_exact by assumption. rewrite Hrun.
    now rewrite touch_all_record.
  - intros St changeCellColor k s.
    rewrite plotLine_exact by assumption. apply Hrun.
Qed.

Lemma plotLine_terminates_witness :
  Z.abs 0 <= 2 ^ 50 /\ Z.abs 4 <= 2 ^ 50 /\ Z.abs 2 <= 2 ^ 50 /\
  exists cells,
    (List.length cells <= line_bound 0 0 4 2)%nat /\
    (forall k,
        Binary64.plotLine record_call (line_bound 0 0 4 2 + k) 0 0 4 2 []
        = Some (Ok cells)).
Proof.
  assert (H0 : Z.abs 0 <= 2 ^ 50) by (vm_compute; discriminate).
  assert (H4 : Z.abs 4 <= 2 ^ 50) by (vm_compute; discriminate).
  assert (H2 : Z.abs 2 <= 2 ^ 50) by (vm_compute; discriminate).
  refine (conj H0 (conj H4 (conj H2 _))).
  destruct (plotLine_terminates 0 0 4 2 H0 H0 H4 H2) as (cells & Hlen & Hrun & _).
  exists cells. now split.
Defined.

(** One turn of the loop of [plotLine(2^53, 0, 2^53+2, 0)]: [x0 + sx] is
    [2^53 + 1], which rounds back to [2^53], and [error] stays [2], so the
    turn ends in the state it began in. *)
Lemma plotLine_loop_stuck {St : Type} (touch : Z -> Z -> St -> result St)
      (fuel : nat) (s : St) :
  Binary64.plotLine_loop touch (S fuel) 9007199254740994 0 2 0 1 (-1)
                         9007199254740992 0 2 s
  = match touch 9007199254740992 0 s with
    | Ok s' =>
        Binary64.plotLine_loop touch fuel 9007199254740994 0 2 0 1 (-1)
                               9007199254740992 0 2 s'
    | Throw e => Some (Throw e)
    end.
Proof.
  cbn [Binary64.plotLine_loop].
  destruct (touch 9007199254740992 0 s) as [s' | e]; reflexivity.
Qed.

(** The claim of C2 fails from 2^53 on: [plotLine(2^53, 0, 2^53+2, 0)] never
    returns.  With any amount of fuel the loop is still running, calling
    [changeCellColor] on [(2^53, 0)] again and again, as long as
    [changeCellColor] does not throw. *)
Lemma plotLine_never_returns :
  Binary64.nearest (9007199254740992 + 1) = 9007199254740992 /\
  (forall fuel calls,
      Binary64.plotLine record_call fuel
                        9007199254740992 0 9007199254740994 0 calls
      = None) /\
  (forall (St : Type) (changeCellColor : Z -> Z -> St -> result St),
      (forall x y s, exists s', changeCellColor x y s = Ok s') ->
      forall fuel s,
        Binary64.plotLine changeCellColor fuel
                          9007199254740992 0 9007199254740994 0 s
        = None).
Proof.
  assert (Hloop : forall (St : Type) (touch : Z -> Z -> St -> result St),
             (forall x y s, exists s', touch x y s = Ok s') ->
             forall fuel s,
               Binary64.plotLine_loop touch fuel 9007199254740994 0 2 0 1 (-1)
                                      9007199254740992 0 2 s
               = None).
  { intros St touch Hok. induction fuel as [| fuel IH]; intros s;
      [reflexivity |].
    rewrite plotLine_loop_stuck.
    destruct (Hok 9007199254740992 0 s) as [s' ->]. apply IH. }
  split; [reflexivity |]. split.
  - intros fuel calls. apply (Hloop _ record_call).
    intros x y s. eexists. reflexivity.
  - intros St changeCellColor Hok fuel s. now apply Hloop.
Qed.

(** ** The brightness functions *)

(** A check on every channel value stands for the values [0] to [255]. *)
Lemma byte_forall (P : Z -> bool) :
  forallb P (map Z.of_nat (seq 0 256)) = true ->
  forall c, 0 <= c <= 255 -> P c = true.
Proof.
  intros Hall c Hc. rewrite forallb_forall in Hall. apply Hall.
  apply in_map_iff. exists (Z.to_nat c). split; [lia |].
  apply in_seq. lia.
Qed.

Lemma increase_channel_value (c : Z) :
  0 <= c <= 255 ->
  Qfloor (clamp ((inject_Z c / 256 + -10 / 100) * 256) 0 256) = Z.max (c - 26) 0.
Proof.
  intros Hc. apply Z.eqb_eq.
  revert c Hc. apply byte_forall. vm_compute. reflexivity.
Qed.

Lemma change_channel_value (c : Z) :
  0 <= c <= 255 ->
  Qfloor (clamp ((inject_Z c / 255 + -10 / 100) * 255) 0 255) = Z.max (c - 26) 0.
Proof.
  intros Hc. apply Z.eqb_eq.
  revert c Hc. apply byte_forall. vm_compute. reflexivity.
Qed.

Lemma spec_darken_channel_value (c : Z) :
  0 <= c <= 255 -> spec_darken_channel c = Z.max (c - 26) 0.
Proof.
  intros Hc. apply Z.eqb_eq.
  revert c Hc. apply byte_forall. vm_compute. reflexivity.
Qed.

(** The doubles give the same integers as the rationals. *)
Lemma binary64_channel_value (c : Z) :
  0 <= c <= 255 ->
  Binary64.integer_value (Binary64.increaseColorBrightness_channel c (-10))
  = Some (Z.max (c - 26) 0) /\
  Binary64.integer_value (Binary64.changeColorBrightness_channel c (-10))
  = Some (Z.max (c - 26) 0).
Proof.
  intros Hc.
  assert (H : (match Binary64.integer_value
                       (Binary64.increaseColorBrightness_channel c (-10)),
                     Binary64.integer_value
                       (Binary64.changeColorBrightness_channel c (-10))
               with
               | Some v, Some w => (v =? Z.max (c - 26) 0) && (w =? Z.max (c - 26) 0)
               | _, _ => false
               end) = true).
  { revert c Hc. apply byte_forall. vm_compute. reflexivity. }
  destruct (Binary64.integer_value (Binary64.increaseColorBrightness_channel _ _));
    [| discriminate].
  destruct (Binary64.integer_value (Binary64.changeColorBrightness_channel _ _));
    [| discriminate].
  apply andb_true_iff in H. destruct H as [H1 H2].
  apply Z.eqb_eq in H1, H2. now subst.
Qed.

Lemma increaseColorBrightness_darken (c : RGB) :
  channel_range c ->
  Script.increaseColorBrightness c (-10) = darker c.
Proof.
  intros (Hr & Hg & Hb). unfold Script.increaseColorBrightness, darker.
  now rewrite !increase_channel_value by assumption.
Qed.

Lemma changeColorBrightness_darken (c : RGB) :
  channel_range c ->
  Variant.changeColorBrightness c (-10) = darker c.
Proof.
  intros (Hr & Hg & Hb). unfold Variant.changeColorBrightness, darker.
  now rewrite !change_channel_value by assumption.
Qed.

(** The darken step through [changeCellColor].  [script.js] writes the
    channels back in the order [r], [b], [g]; the variant in the order [r],
    [g], [b]. *)
Example darken_step_examples :
  Script.changeCellColor 0 0
    (sample_page 1 ["rgb(200, 200, 200)"%string] None false true)
  = Ok (sample_page 1 ["rgb(174, 174, 174)"%string] None false true) /\
  Script.changeCellColor 0 0
    (sample_page 1 ["rgb(0, 0, 0)"%string] None false true)
  = Ok (sample_page 1 ["rgb(0, 0, 0)"%string] None false true) /\
  Script.changeCellColor 0 0
    (sample_page 1 ["rgb(100, 150, 200)"%string] None false true)
  = Ok (sample_page 1 ["rgb(74, 174, 124)"%string] None false true) /\
  Variant.changeCellColor 0 0
    (sample_page 1 ["rgb(100, 150, 200)"%string] None false true)
  = Ok (sample_page 1 ["rgb(74, 124, 174)"%string] None false true).
Proof. repeat split. Qed.

(** C9.  For integer channels in [[0,255]] and a percentage of [-10], the
    256-based [increaseColorBrightness] of [script.js] and the 255-based
    [changeColorBrightness] of the variant return the same colour, each
    channel being [max(channel - 26, 0)]; the evaluation in doubles gives the
    same integers. *)
Theorem brightness_functions_agree (red green blue : Z) :
  0 <= red <= 255 -> 0 <= green <= 255 -> 0 <= blue <= 255 ->
  Script.increaseColorBrightness (mkRGB red green blue) (-10)
  = Variant.changeColorBrightness (mkRGB red green blue) (-10) /\
  Variant.changeColorBrightness (mkRGB red green blue) (-10)
  = mkRGB (Z.max (red - 26) 0) (Z.max (green - 26) 0) (Z.max (blue - 26) 0) /\
  (forall c, In c [red; green; blue] ->
     Binary64.integer_value (Binary64.increaseColorBrightness_channel c (-10))
     = Some (Z.max (c - 26) 0) /\
     Binary64.integer_value (Binary64.changeColorBrightness_channel c (-10))
     = Some (Z.max (c - 26) 0)).
Proof.
  intros Hr Hg Hb.
  assert (Hc : channel_range (mkRGB red green blue)) by (now split).
  split; [| split].
  - now rewrite increaseColorBrightness_darken, changeColorBrightness_darken.
  - now rewrite changeColorBrightness_darken.
  - intros c [<- | [<- | [<- | []]]]; now apply binary64_channel_value.
Qed.

Lemma brightness_functions_agree_witness :
  0 <= 100 <= 255 /\ 0 <= 20 <= 255 /\ 0 <= 255 <= 255 /\
  Script.increaseColorBrightness (mkRGB 100 20 255) (-10)
  = Variant.changeColorBrightness (mkRGB 100 20 255) (-10) /\
  Variant.changeColorBrightness (mkRGB 100 20 255) (-10) = mkRGB 74 0 229.
Proof.
  assert (H1 : 0 <= 100 <= 255) by lia.
  assert (H2 : 0 <= 20 <= 255) by lia.
  assert (H3 : 0 <= 255 <= 255) by lia.
  pose proof (brightness_functions_agree 100 20 255 H1 H2 H3) as H.
  exact (conj H1 (conj H2 (conj H3 (conj (proj1 H) (proj1 (proj2 H)))))).
Defined.

(** ** The colour step *)

Lemma page_eta (p : page) :
  set_drawn (drawn p) (set_childNodes (childNodes p) p) = p.
Proof. now destruct p. Qed.

Lemma node_at_nth (nodes : list cell) (index : option Q) (i : nat) (c : cell) :
  node_at nodes index = Some (i, c) -> nth_error nodes i = Some c.
Proof.
  unfold node_at. destruct index as [q |]; [| discriminate].
  destruct (Qeq_bool q (inject_Z (Qfloor q)) && (0 <=? Qfloor q));
    [| discriminate].
  destruct (nth_error nodes (Z.to_nat (Qfloor q))) eqn:Hnth; [| discriminate].
  intros [= <- <-]. exact Hnth.
Qed.

Lemma assign_backgroundColor_same (nodes : list cell) (i : nat) (c : cell)
      (text : string) :
  nth_error nodes i = Some c ->
  style_set_backgroundColor (backgroundColor c) text = backgroundColor c ->
  assign_backgroundColor nodes i text = nodes.
Proof.
  revert i. induction nodes as [| n nodes IH]; intros [| i] Hnth Hset;
    simpl in *; try discriminate.
  - injection Hnth as ->. rewrite Hset. now destruct c.
  - f_equal. now apply IH.
Qed.

Lemma assign_backgroundColor_other (nodes : list cell) (i j : nat)
      (text : string) :
  j <> i ->
  nth_error (assign_backgroundColor nodes i text) j = nth_error nodes j.
Proof.
  revert i j. induction nodes as [| n nodes IH]; intros [| i] [| j] Hne;
    simpl; try reflexivity; try contradiction.
  apply IH. congruence.
Qed.

Lemma assign_backgroundColor_at (nodes : list cell) (i : nat) (c : cell)
      (text : string) :
  nth_error nodes i = Some c ->
  nth_error (assign_backgroundColor nodes i text) i
  = Some (mkCell (data_x c) (data_y c)
                 (style_set_backgroundColor (backgroundColor c) text)).
Proof.
  revert i. induction nodes as [| n nodes IH]; intros [| i] Hnth;
    simpl in *; try discriminate.
  - now injection Hnth as ->.
  - now apply IH.
Qed.

(** A string has no channels: the text assigned is not a colour, and the
    browser keeps the colour it had. *)
Lemma color_text_of_string (old text : string) :
  style_set_backgroundColor old (Script.color_text (ColorString text)) = old /\
  style_set_backgroundColor old (Variant.color_text (ColorString text)) = old.
Proof. split; reflexivity. Qed.

Lemma css_serialize_not_empty (c : RGB) : css_serialize c <> EmptyString.
Proof. unfold css_serialize. simpl. discriminate. Qed.

(** Re-entry without darken, for any colour string that is not empty. *)
Lemma repaint_keeps_string (p : page) (x y : Z) (i : nat) (c : cell) :
  node_at (childNodes p) (cell_index (canvasDimension p) x y) = Some (i, c) ->
  backgroundColor c <> EmptyString ->
  darkenColor_checked p = false ->
  Script.changeCellColor x y p = Ok p /\ Variant.changeCellColor x y p = Ok p.
Proof.
  intros Hnode Hset Hdark.
  pose proof (node_at_nth _ _ _ _ Hnode) as Hnth.
  unfold Script.changeCellColor, Variant.changeCellColor.
  rewrite Hnode, Hdark. cbv zeta.
  destruct (backgroundColor c) as [| a text] eqn:Hcolor; [contradiction |].
  cbn [bind fst snd].
  destruct (color_text_of_string (backgroundColor c) (String a text))
    as [Hs Hv].
  rewrite (assign_backgroundColor_same _ _ _ _ Hnth Hs).
  rewrite (assign_backgroundColor_same _ _ _ _ Hnth Hv).
  now rewrite page_eta.
Qed.

(** C3.  When the cell already holds a colour [(r,g,b)] and the darken toggle
    is off (Plain or Random mode), the colour step leaves the page, and so
    the colour of the cell, as it was. *)
Theorem repaint_without_darken (p : page) (x y : Z) (i : nat) (c : cell)
        (color : RGB) :
  node_at (childNodes p) (cell_index (canvasDimension p) x y) = Some (i, c) ->
  backgroundColor c = css_serialize color ->
  darkenColor_checked p = false ->
  Script.changeCellColor x y p = Ok p /\ Variant.changeCellColor x y p = Ok p.
Proof.
  intros Hnode Hcolor Hdark.
  apply (repaint_keeps_string p x y i c Hnode); [| exact Hdark].
  rewrite Hcolor. apply css_serialize_not_empty.
Qed.

Lemma repaint_without_darken_witness :
  let p := sample_page 2 [""; ""; ""; "rgb(100, 150, 200)"]%string
                       None true false in
  let c := mkCell 1 1 "rgb(100, 150, 200)" in
  node_at (childNodes p) (cell_index (canvasDimension p) 1 1) = Some (3%nat, c) /\
  backgroundColor c = css_serialize (mkRGB 100 150 200) /\
  darkenColor_checked p = false /\
  Script.changeCellColor 1 1 p = Ok p /\ Variant.changeCellColor 1 1 p = Ok p.
Proof.
  intros p c.
  assert (H1 : node_at (childNodes p) (cell_index (canvasDimension p) 1 1)
               = Some (3%nat, c)) by reflexivity.
  assert (H2 : backgroundColor c = css_serialize (mkRGB 100 150 200))
    by reflexivity.
  assert (H3 : darkenColor_checked p = false) by reflexivity.
  exact (conj H1 (conj H2 (conj H3
           (repaint_without_darken p 1 1 3 c (mkRGB 100 150 200) H1 H2 H3)))).
Defined.

Lemma rgbCSSColorToRGB_throws (a : ascii) (text : string) :
  rgbCSSColorToRGB (String a text) = Throw TypeError <->
  (List.length (matchAll_digits (String a text)) < 3)%nat.
Proof.
  unfold rgbCSSColorToRGB, match_value.
  destruct (matchAll_digits (String a text)) as [| d0 [| d1 [| d2 rest]]];
    simpl; split; intros H; try reflexivity; try discriminate; lia.
Qed.

Lemma rgbCSSColorToRGB_cases (a : ascii) (text : string) :
  rgbCSSColorToRGB (String a text) = Throw TypeError \/
  exists color, rgbCSSColorToRGB (String a text) = Ok (Some color).
Proof.
  unfold rgbCSSColorToRGB, match_value.
  destruct (matchAll_digits (String a text)) as [| d0 [| d1 [| d2 rest]]];
    simpl; eauto.
Qed.

(** ** Addressing a cell *)

Lemma js_rem_integers (x d : Z) :
  0 <= x -> 0 < d ->
  js_rem (inject_Z x) (inject_Z d) = Some (inject_Z (x mod d)).
Proof.
  intros Hx Hd. unfold js_rem.
  assert (Hd0 : Qeq_bool (inject_Z d) 0 = false).
  { destruct (Qeq_bool (inject_Z d) 0) eqn:E; [| reflexivity].
    apply Qeq_bool_eq in E. unfold Qeq in E. simpl in E. lia. }
  rewrite Hd0.
  assert (Hq : Qle_bool 0 (inject_Z x / inject_Z d) = true).
  { apply Qle_bool_iff. apply Qle_shift_div_l.
    - change 0%Q with (inject_Z 0). rewrite <- Zlt_Qlt. exact Hd.
    - rewrite Qmult_0_l. change 0%Q with (inject_Z 0).
      rewrite <- Zle_Qle. exact Hx. }
  unfold Qtrunc. rewrite Hq, <- Zdiv_Qdiv.
  unfold Qminus. rewrite <- inject_Z_mult, <- inject_Z_opp, <- inject_Z_plus.
  do 2 f_equal. rewrite Z.mod_eq by lia. ring.
Qed.

Lemma cell_index_integers (x y d : Z) :
  0 <= x -> 0 < d ->
  cell_index (inject_Z d) x y = Some (inject_Z (y * d + x mod d)).
Proof.
  intros Hx Hd. unfold cell_index. rewrite js_rem_integers by assumption.
  now rewrite Qfloor_Z, <- inject_Z_mult, <- inject_Z_plus.
Qed.

Lemma node_at_integer (nodes : list cell) (k : Z) :
  0 <= k ->
  node_at nodes (Some (inject_Z k))
  = match nth_error nodes (Z.to_nat k) with
    | Some c => Some (Z.to_nat k, c)
    | None => None
    end.
Proof.
  intros Hk. unfold node_at. rewrite Qfloor_Z, Qeq_bool_refl.
  destruct (Z.leb_spec 0 k); [reflexivity | lia].
Qed.

Lemma new_cells_length (d : Z) :
  List.length (new_cells (inject_Z d)) = Z.to_nat (d * d).
Proof.
  unfold new_cells. rewrite length_map, length_seq.
  now rewrite <- inject_Z_mult, Qceiling_Z.
Qed.

Lemma new_cells_nth (d k : Z) :
  0 < d -> 0 <= k < d * d ->
  nth_error (new_cells (inject_Z d)) (Z.to_nat k)
  = Some (mkCell (k mod d) (k / d) EmptyString).
Proof.
  intros Hd Hk. unfold new_cells.
  rewrite nth_error_map, nth_error_seq.
  rewrite <- inject_Z_mult, Qceiling_Z.
  destruct (Nat.ltb_spec (Z.to_nat k) (Z.to_nat (d * d))); [| lia].
  simpl. unfold new_cell. rewrite Z2Nat.id by lia.
  rewrite js_rem_integers by lia. now rewrite Qfloor_Z, <- Zdiv_Qdiv.
Qed.

Lemma changeCellColor_writes_one (p p' : page) (x y : Z) (i : nat) (c : cell) :
  node_at (childNodes p) (cell_index (canvasDimension p) x y) = Some (i, c) ->
  Script.changeCellColor x y p = Ok p' \/ Variant.changeCellColor x y p = Ok p' ->
  exists text, childNodes p' = assign_backgroundColor (childNodes p) i text.
Proof.
  intros Hnode.
  unfold Script.changeCellColor, Variant.changeCellColor.
  rewrite Hnode. cbv zeta.
  intros [H | H];
    match type of H with
    | bind ?m _ = _ => destruct m as [chosen | e]; [| discriminate]
    end;
    cbn [bind] in H; injection H as <-; eexists; reflexivity.
Qed.

Lemma row_major_split (d x y : Z) :
  0 <= y < d -> 0 <= x ->
  0 <= y * d + x mod d < d * d /\
  (y * d + x mod d) mod d = x mod d /\
  (y * d + x mod d) / d = y.
Proof.
  intros Hy Hx.
  assert (Hm : 0 <= x mod d < d) by (apply Z.mod_pos_bound; lia).
  split; [nia |].
  split.
  - rewrite Z.add_comm, Z.mod_add by lia. apply Z.mod_mod. lia.
  - rewrite Z.add_comm, Z.div_add by lia. rewrite Z.div_small by lia. lia.
Qed.

(** C10.  On a canvas of integer dimension [d], for [0 <= y < d] and
    [0 <= x], [changeCellColor] addresses the node at the row-major index
    [y*d + (x mod d)], which is the cell of column [x mod d] in row [y]: the
    cell [(x,y)] itself when [x < d], and for a larger [x] the same cell as
    [x mod d], with no out-of-range error.  No other node is written. *)
Theorem changeCellColor_addressing (d x y : Z) (p : page) :
  canvas_of d p -> 0 <= y < d -> 0 <= x ->
  let index := Z.to_nat (y * d + x mod d) in
  (exists c,
      node_at (childNodes p) (cell_index (canvasDimension p) x y)
      = Some (index, c) /\
      data_x c = x mod d /\ data_y c = y /\ (x < d -> data_x c = x)) /\
  Script.changeCellColor x y p = Script.changeCellColor (x mod d) y p /\
  Variant.changeCellColor x y p = Variant.changeCellColor (x mod d) y p /\
  (forall p',
      Script.changeCellColor x y p = Ok p' \/
      Variant.changeCellColor x y p = Ok p' ->
      forall j, j <> index ->
                nth_error (childNodes p') j = nth_error (childNodes p) j).
Proof.
  intros [Hdim Hcells] Hy Hx index.
  assert (Hd : 0 < d) by lia.
  destruct (row_major_split d x y Hy Hx) as (Hk & Hcol & Hrow).
  assert (Hnode : exists c,
             node_at (childNodes p) (cell_index (canvasDimension p) x y)
             = Some (index, c) /\ data_x c = x mod d /\ data_y c = y).
  { rewrite Hdim, cell_index_integers, node_at_integer by lia.
    fold index.
    assert (Hnth : nth_error (map (fun c => (data_x c, data_y c)) (childNodes p))
                             index
                   = Some (x mod d, y)).
    { rewrite Hcells, nth_error_map. unfold index.
      rewrite new_cells_nth by lia. simpl. now rewrite Hcol, Hrow. }
    rewrite nth_error_map in Hnth.
    destruct (nth_error (childNodes p) index) as [c |]; [| discriminate].
    simpl in Hnth. injection Hnth as Hcx Hcy. eauto. }
  destruct Hnode as (c & Hnode & Hcx & Hcy).
  split; [| split; [| split]].
  - exists c. repeat split; try assumption.
    intros Hlt. rewrite Hcx. apply Z.mod_small. lia.
  - unfold Script.changeCellColor. rewrite Hdim.
    rewrite !cell_index_integers by (try apply Z.mod_pos_bound; lia).
    now rewrite Z.mod_mod by lia.
  - unfold Variant.changeCellColor. rewrite Hdim.
    rewrite !cell_index_integers by (try apply Z.mod_pos_bound; lia).
    now rewrite Z.mod_mod by lia.
  - intros p' Hrun j Hj.
    destruct (changeCellColor_writes_one p p' x y index c Hnode Hrun)
      as [text ->].
    now apply assign_backgroundColor_other.
Qed.

Lemma changeCellColor_addressing_witness :
  let p := sample_page 2 [""; ""; ""; ""]%string None false false in
  canvas_of 2 p /\ 0 <= 1 < 2 /\ 0 <= 5 /\
  Script.changeCellColor 5 1 p = Script.changeCellColor (5 mod 2) 1 p /\
  Script.changeCellColor 5 1 p
  = Ok (sample_page 2 [""; ""; ""; "rgb(240, 240, 240)"]%string
                    None false false).
Proof.
  intros p.
  assert (H1 : canvas_of 2 p) by (split; reflexivity).
  assert (H2 : 0 <= 1 < 2) by lia.
  assert (H3 : 0 <= 5) by lia.
  pose proof (changeCellColor_addressing 2 5 1 p H1 H2 H3) as H.
  refine (conj H1 (conj H2 (conj H3 (conj (proj1 (proj2 H)) _)))).
  reflexivity.
Defined.

(** ** Random colours *)

Lemma Qle_of_Qeq (x y : Q) : (x == y)%Q -> (x <= y)%Q.
Proof. intros H. rewrite H. apply Qle_refl. Qed.

Lemma floor_of_scaled_draw (u : Q) (n : Z) :
  0 < n -> (0 <= u)%Q -> (u < 1)%Q ->
  0 <= Qfloor (u * inject_Z n) <= n - 1.
Proof.
  intros Hn H0 H1.
  assert (Hpos : (0 < inject_Z n)%Q)
    by (change 0%Q with (inject_Z 0); now rewrite <- Zlt_Qlt).
  split.
  - change 0 with (Qfloor 0). apply Qfloor_resp_le.
    apply Qmult_le_0_compat; [exact H0 | now apply Qlt_le_weak].
  - assert (Hlt : (inject_Z (Qfloor (u * inject_Z n)) < inject_Z n)%Q).
    { apply Qle_lt_trans with (u * inject_Z n)%Q; [apply Qfloor_le |].
      rewrite <- (Qmult_1_l (inject_Z n)) at 2.
      now apply Qmult_lt_compat_r. }
    rewrite <- Zlt_Qlt in Hlt. lia.
Qed.

(** [script.js]: every channel of a random colour is in [[0,255]]. *)
Lemma script_random_range (random : nat -> Q) (drawn : nat) :
  unit_draws random ->
  channel_range (Script.getRandomColor random drawn).
Proof.
  intros Hu. unfold channel_range, Script.getRandomColor; simpl.
  repeat split;
    apply (floor_of_scaled_draw _ 256); try lia; apply Hu.
Qed.

(** [script.js]: a draw gives the channel value [k] exactly when it falls in
    [[k/256, (k+1)/256)], an interval of length [1/256] for every [k]; so a
    uniform draw gives a uniform channel, and every value from [0] to [255]
    has a draw that gives it. *)
Lemma script_random_bucket (u : Q) (k : Z) :
  Qfloor (u * 256) = k <->
  (inject_Z k / 256 <= u)%Q /\ (u < inject_Z (k + 1) / 256)%Q.
Proof.
  assert (H256 : (0 < 256)%Q) by reflexivity.
  split.
  - intros <-. split.
    + apply Qle_shift_div_r; [exact H256 | apply Qfloor_le].
    + apply Qlt_shift_div_l; [exact H256 | apply Qlt_floor].
  - intros [Hlo Hhi].
    assert (Hlo' : (inject_Z k <= u * 256)%Q).
    { apply (Qmult_le_r _ _ 256 H256) in Hlo.
      apply Qle_trans with (2 := Hlo). apply Qle_of_Qeq. field. }
    assert (Hhi' : (u * 256 < inject_Z (k + 1))%Q).
    { apply (Qmult_lt_r _ _ 256 H256) in Hhi.
      apply Qlt_le_trans with (1 := Hhi). apply Qle_of_Qeq. field. }
    apply Qfloor_resp_le in Hlo'. rewrite Qfloor_Z in Hlo'.
    assert (Hf : (inject_Z (Qfloor (u * 256)) < inject_Z (k + 1))%Q)
      by (apply Qle_lt_trans with (2 := Hhi'); apply Qfloor_le).
    rewrite <- Zlt_Qlt in Hf. lia.
Qed.

Lemma script_random_attains (k : Z) :
  0 <= k <= 255 ->
  exists u, (0 <= u)%Q /\ (u < 1)%Q /\
            Script.getRandomColor (constant_draws u) 0 = mkRGB k k k.
Proof.
  intros Hk. exists (inject_Z k / 256)%Q.
  assert (H256 : (0 < 256)%Q) by reflexivity.
  assert (Hf : Qfloor (inject_Z k / 256 * 256) = k).
  { apply script_random_bucket. split; [apply Qle_refl |].
    apply Qmult_lt_r with (1 := H256).
    apply Qle_lt_trans with (inject_Z k); [apply Qle_of_Qeq; field |].
    apply Qlt_le_trans with (inject_Z (k + 1));
      [rewrite <- Zlt_Qlt; lia | apply Qle_of_Qeq; field]. }
  repeat split.
  - apply Qle_shift_div_l; [exact H256 |].
    rewrite Qmult_0_l. change 0%Q with (inject_Z 0). rewrite <- Zle_Qle. lia.
  - apply Qlt_shift_div_r; [exact H256 |].
    rewrite Qmult_1_l. change 256%Q with (inject_Z 256).
    rewrite <- Zlt_Qlt. lia.
  - unfold Script.getRandomColor, constant_draws. now rewrite Hf.
Qed.

(** C5 fails on the variant of the script: its [getRandomColor] multiplies
    the draw by [255], so every channel is in [[0,254]] and the value [255]
    is never produced. *)
Theorem variant_random_misses_255 (random : nat -> Q) (drawn : nat) :
  unit_draws random ->
  let color := Variant.getRandomColor random drawn in
  0 <= r color <= 254 /\ 0 <= g color <= 254 /\ 0 <= b color <= 254.
Proof.
  intros Hu. unfold Variant.getRandomColor; simpl.
  repeat split;
    apply (floor_of_scaled_draw _ 255); try lia; apply Hu.
Qed.

Lemma constant_draws_unit (u : Q) :
  (0 <= u)%Q -> (u < 1)%Q -> unit_draws (constant_draws u).
Proof. intros H0 H1 n. now split. Qed.

Lemma variant_random_misses_255_witness :
  unit_draws (constant_draws (255 # 256)) /\
  Variant.getRandomColor (constant_draws (255 # 256)) 0 = mkRGB 254 254 254 /\
  Script.getRandomColor (constant_draws (255 # 256)) 0 = mkRGB 255 255 255 /\
  r (Variant.getRandomColor (constant_draws (255 # 256)) 0) <= 254.
Proof.
  assert (H : unit_draws (constant_draws (255 # 256)))
    by (apply constant_draws_unit; [discriminate | reflexivity]).
  refine (conj H (conj eq_refl (conj eq_refl _))).
  exact (proj2 (proj1 (variant_random_misses_255 _ 0 H))).
Defined.

(** ** The dimension prompt *)

Lemma invalid_dimension_finite (v : number) :
  invalid_dimension v = false <->
  exists q, v = Num q /\ (0 < q)%Q /\ (q <= 100)%Q.
Proof.
  unfold invalid_dimension. destruct v as [| negative | q]; simpl.
  - split; [discriminate | intros (q & H & _); discriminate].
  - split; [destruct negative; discriminate | intros (q & H & _); discriminate].
  - rewrite !orb_false_iff, !negb_false_iff, !Qle_bool_iff. split.
    + intros [[Hz Hle] Hge]. exists q. repeat split; try assumption.
      apply Qlt_leneq. split; [exact Hge |].
      intros Heq. apply Qeq_bool_neq in Hz. apply Hz. now symmetry.
    + intros (q' & [= <-] & Hpos & Hle). repeat split; try assumption.
      * destruct (Qeq_bool q 0) eqn:E; [| reflexivity].
        apply Qeq_bool_eq in E. rewrite E in Hpos. discriminate.
      * now apply Qlt_le_weak.
Qed.

(** Rejected answers are skipped one by one. *)
Lemma ask_dimension_skips (answers : nat -> number) (n : nat) :
  forall fuel asked,
    (forall k, (k < n)%nat -> invalid_dimension (answers (asked + k)%nat) = true) ->
    ask_dimension (n + fuel) answers asked
    = ask_dimension fuel answers (asked + n)%nat.
Proof.
  induction n as [| n IH]; intros fuel asked Hrej.
  - now rewrite Nat.add_0_r.
  - simpl. pose proof (Hrej 0%nat ltac:(lia)) as H0.
    rewrite Nat.add_0_r in H0. rewrite H0.
    rewrite IH.
    + f_equal. lia.
    + intros k Hk. replace (S asked + k)%nat with (asked + S k)%nat by lia.
      apply Hrej. lia.
Qed.

(** The test of the prompt loop: a value is accepted exactly when it is a
    number in [(0,100]]; [0], [101] and [NaN] (a non-numeric answer) are
    rejected, [1] and [100] accepted, and the loop prompts again after every
    rejected value, however many there are. *)
Lemma dimension_prompt :
  (forall v, invalid_dimension v = false <->
             exists q, v = Num q /\ (0 < q)%Q /\ (q <= 100)%Q) /\
  invalid_dimension (Num 0) = true /\
  invalid_dimension (Num 101) = true /\
  invalid_dimension NaN = true /\
  invalid_dimension (Num 1) = false /\
  invalid_dimension (Num 100) = false /\
  (forall (answers : nat -> number) (n : nat),
      (forall k, (k < n)%nat -> invalid_dimension (answers k) = true) ->
      ask_dimension n answers 0 = None /\
      (invalid_dimension (answers n) = false ->
       forall fuel, ask_dimension (n + S fuel) answers 0
                    = Some (answers n, S n))).
Proof.
  split; [exact invalid_dimension_finite |].
  repeat (split; [reflexivity |]).
  intros answers n Hrej. split.
  - rewrite <- (Nat.add_0_r n) at 1. now rewrite ask_dimension_skips.
  - intros Hok fuel. rewrite ask_dimension_skips by exact Hrej.
    simpl. now rewrite Hok.
Qed.

Lemma dimension_prompt_witness :
  let answers := fun k => match k with
                          | 0%nat => NaN
                          | 1%nat => Num 0
                          | 2%nat => Num 101
                          | _ => Num 16
                          end in
  (forall k, (k < 3)%nat -> invalid_dimension (answers k) = true) /\
  invalid_dimension (answers 3%nat) = false /\
  ask_dimension 3 answers 0 = None /\
  ask_dimension 4 answers 0 = Some (Num 16, 4%nat).
Proof.
  intros answers.
  assert (H1 : forall k, (k < 3)%nat -> invalid_dimension (answers k) = true).
  { intros [| [| [| k]]] Hk; try reflexivity. lia. }
  assert (H2 : invalid_dimension (answers 3%nat) = false) by reflexivity.
  destruct dimension_prompt as (_ & _ & _ & _ & _ & _ & Hloop).
  destruct (Hloop answers 3%nat H1) as [Hnone Hsome].
  exact (conj H1 (conj H2 (conj Hnone (Hsome H2 0%nat)))).
Defined.

(** C7 fails on the code: the prompt loop has no test for an integer.  A
    number [q] in [(0,100]] that is not an integer, which the specification
    does not call valid, is accepted at the first prompt; [resetCanvas]
    makes it the dimension of the canvas and builds the cells for it, in
    [script.js] and in the variant. *)
Theorem resetCanvas_accepts_fraction (q : Q) (answers : nat -> number)
        (p : page) (fuel : nat) :
  (0 < q)%Q -> (q <= 100)%Q -> (forall z, ~ (q == inject_Z z)%Q) ->
  answers 0%nat = Num q ->
  ~ spec_valid_dimension (Num q) /\
  invalid_dimension (Num q) = false /\
  ask_dimension (S fuel) answers 0 = Some (Num q, 1%nat) /\
  (exists p', Script.resetCanvas (S fuel) answers p = Some p' /\
              canvasDimension p' = q /\ childNodes p' = new_cells q) /\
  (exists p', Variant.resetCanvas (S fuel) answers p = Some p' /\
              canvasDimension p' = q /\ childNodes p' = new_cells q).
Proof.
  intros Hpos Hle Hfrac Hanswer.
  assert (Hok : invalid_dimension (Num q) = false)
    by (apply invalid_dimension_finite; eauto).
  assert (Hask : ask_dimension (S fuel) answers 0 = Some (Num q, 1%nat))
    by (cbn [ask_dimension]; now rewrite Hanswer, Hok).
  split; [| split; [exact Hok | split; [exact Hask |]]].
  - intros (q' & z & [= <-] & Hz & _). exact (Hfrac z Hz).
  - unfold Script.resetCanvas, Variant.resetCanvas. rewrite Hask.
    split; eexists; (split; [reflexivity |]); split; reflexivity.
Qed.

Lemma resetCanvas_accepts_fraction_witness :
  let answers := constant_answer (Num (5 # 2)) in
  let p := loaded_page None in
  (0 < 5 # 2)%Q /\ (5 # 2 <= 100)%Q /\
  (forall z, ~ (5 # 2 == inject_Z z)%Q) /\
  answers 0%nat = Num (5 # 2) /\
  ~ spec_valid_dimension (Num (5 # 2)) /\
  exists p', Script.resetCanvas 1 answers p = Some p' /\
             canvasDimension p' = 5 # 2 /\
             childNodes p' = new_cells (5 # 2).
Proof.
  intros answers p.
  assert (H1 : (0 < 5 # 2)%Q) by reflexivity.
  assert (H2 : (5 # 2 <= 100)%Q) by discriminate.
  assert (H3 : forall z, ~ (5 # 2 == inject_Z z)%Q)
    by (intros z; unfold Qeq; simpl; lia).
  assert (H4 : answers 0%nat = Num (5 # 2)) by reflexivity.
  refine (conj H1 (conj H2 (conj H3 (conj H4 _)))).
  destruct (resetCanvas_accepts_fraction (5 # 2) answers p 0 H1 H2 H3 H4)
    as (Hspec & _ & _ & Hscript & _).
  exact (conj Hspec Hscript).
Defined.

(** What the accepted [2.5] does to the page: [resetCanvas] builds 7 cells,
    for the indices below [6.25], and the colour step on the cell with
    [data-x = 1] and [data-y = 1] computes the index [3.5], finds no node
    there and throws; so does [mouseEnter] on that cell.  This is so in
    [script.js] and in the variant. *)
Example fraction_dimension_breaks_canvas :
  match Script.resetCanvas 1 (constant_answer (Num (5 # 2)))
                           (loaded_page None) with
  | Some p' =>
      Some (map (fun c => (data_x c, data_y c)) (childNodes p'),
            cell_index (canvasDimension p') 1 1,
            Script.changeCellColor 1 1 p',
            Script.mouseEnter 1 (mkCell 1 1 EmptyString) p')
  | None => None
  end
  = Some ([(0, 0); (1, 0); (2, 0); (0, 1); (1, 1); (0, 2); (1, 2)],
          Some (7 # 2), Throw TypeError, Some (Throw TypeError)) /\
  match Variant.resetCanvas 1 (constant_answer (Num (5 # 2)))
                            (loaded_page None) with
  | Some p' =>
      Some (List.length (childNodes p'),
            Variant.changeCellColor 1 1 p',
            Variant.mouseEnter 1 (mkCell 1 1 EmptyString) p')
  | None => None
  end
  = Some (7%nat, Throw TypeError, Some (Throw TypeError)).
Proof. split; vm_compute; reflexivity. Qed.

(** ** The pointer position across a reset *)

Lemma ask_dimension_accepts (fuel : nat) (answers : nat -> number) :
  forall asked v n,
    ask_dimension fuel answers asked = Some (v, n) ->
    invalid_dimension v = false.
Proof.
  induction fuel as [| fuel IH]; intros asked v n; simpl; [discriminate |].
  destruct (invalid_dimension (answers asked)) eqn:E.
  - apply IH.
  - now intros [= <- _].
Qed.

(** The variant clears the position: [resetCanvas] ends with
    [startPainting], whose listeners start from [undefined]. *)
Lemma variant_resetCanvas_clears (fuel : nat) (answers : nat -> number)
      (p p' : page) :
  Variant.resetCanvas fuel answers p = Some p' -> prevPos p' = None.
Proof.
  unfold Variant.resetCanvas.
  destruct (ask_dimension fuel answers 0) as [[[| negative | q] n] |];
    try discriminate.
  now intros [= <-].
Qed.

(** C8 fails on [script.js]: its [resetCanvas] does not touch [prevPos], so
    after the rebuild the position is what it was before. *)
Theorem script_resetCanvas_keeps_prevPos (fuel : nat) (answers : nat -> number)
        (p p' : page) :
  Script.resetCanvas fuel answers p = Some p' -> prevPos p' = prevPos p.
Proof.
  unfold Script.resetCanvas.
  destruct (ask_dimension fuel answers 0) as [[[| negative | q] n] |];
    try discriminate.
  now intros [= <-].
Qed.

Lemma script_resetCanvas_keeps_prevPos_witness :
  let p := loaded_page (Some (15, 15)) in
  exists p',
    Script.resetCanvas 1 (constant_answer (Num 4)) p = Some p' /\
    prevPos p' = Some (15, 15) /\
    canvasDimension p' = 4%Q /\
    List.length (childNodes p') = 16%nat.
Proof.
  intros p.
  destruct (Script.resetCanvas 1 (constant_answer (Num 4)) p) as [p' |] eqn:E;
    [| discriminate].
  exists p'. split; [reflexivity |].
  split; [exact (script_resetCanvas_keeps_prevPos _ _ _ _ E) |].
  vm_compute in E. injection E as <-. split; reflexivity.
Defined.

(** What the stale position does: after a reset from 16 to 4 cells a side,
    the next [mouseenter] draws a line from the old cell [(15,15)], whose
    index is past the end of the new canvas, and throws.  The variant paints
    the entered cell. *)
Example stale_prevPos_throws :
  match Script.resetCanvas 1 (constant_answer (Num 4))
                           (loaded_page (Some (15, 15))) with
  | Some p' => Script.mouseEnter 16 (mkCell 0 0 EmptyString) p'
  | None => None
  end = Some (Throw TypeError) /\
  match Variant.resetCanvas 1 (constant_answer (Num 4))
                            (loaded_page (Some (15, 15))) with
  | Some p' =>
      match Variant.mouseEnter 16 (mkCell 0 0 EmptyString) p' with
      | Some (Ok p'') => option_map backgroundColor (nth_error (childNodes p'') 0)
      | _ => None
      end
  | None => None
  end = Some "rgb(240, 240, 240)"%string.
Proof. split; vm_compute; reflexivity. Qed.

(** ** Colours through the style and back *)

Lemma append_assoc (s1 s2 s3 : string) :
  ((s1 ++ s2) ++ s3 = s1 ++ (s2 ++ s3))%string.
Proof. induction s1 as [| c s1 IH]; simpl; [reflexivity | now rewrite IH]. Qed.

Lemma append_empty_r (s : string) : (s ++ "" = s)%string.
Proof. induction s as [| c s IH]; simpl; [reflexivity | now rewrite IH]. Qed.

Lemma take_digits_run (digits rest : string) :
  all_digits digits = true ->
  starts_with_digit rest = false ->
  take_digits (digits ++ rest) = (digits, rest).
Proof.
  intros Hd Hrest. induction digits as [| c digits IH];
    cbn [append take_digits all_digits starts_with_digit] in *.
  - destruct rest as [| c rest]; [reflexivity |].
    cbn [take_digits starts_with_digit] in *. now rewrite Hrest.
  - apply andb_true_iff in Hd. destruct Hd as [Hc Hd].
    now rewrite Hc, IH.
Qed.

Lemma matchAll_digits_run (digits rest : string) :
  all_digits digits = true ->
  forall run,
    matchAll_digits_from (digits ++ rest) run
    = matchAll_digits_from rest (run ++ digits).
Proof.
  intros Hd. induction digits as [| c digits IH]; intros run;
    cbn [append matchAll_digits_from all_digits] in *.
  - now rewrite append_empty_r.
  - apply andb_true_iff in Hd. destruct Hd as [Hc Hd].
    rewrite Hc, IH by assumption. now rewrite append_assoc.
Qed.

(** A digit is neither a space nor a sign. *)
Lemma digit_first (c : ascii) (rest : string) :
  is_digit c = true ->
  skip_spaces (String c rest) = String c rest /\
  css_integer (String c rest)
  = (let (digits, tail) := take_digits (String c rest) in
     match digits with
     | EmptyString => None
     | _ => Some (Number_of_digits digits, tail)
     end).
Proof.
  intros Hc.
  destruct c as [[] [] [] [] [] [] [] []]; try discriminate Hc;
    split; reflexivity.
Qed.

Lemma css_integer_run (digits rest : string) :
  all_digits digits = true ->
  starts_with_digit digits = true ->
  starts_with_digit rest = false ->
  skip_spaces (digits ++ rest) = (digits ++ rest)%string /\
  css_integer (digits ++ rest) = Some (Number_of_digits digits, rest).
Proof.
  intros Hd Hs Hrest.
  pose proof (take_digits_run digits rest Hd Hrest) as Htake.
  destruct digits as [| c digits]; [discriminate |].
  simpl in Hs. simpl append in *.
  destruct (digit_first c (digits ++ rest) Hs) as [Hskip Hint].
  split; [exact Hskip |].
  rewrite Hint, Htake. reflexivity.
Qed.

(** The text of a channel value is a run of digits that reads back as the
    value. *)
Lemma channel_text_digits (c : Z) :
  0 <= c <= 255 ->
  all_digits (Z_to_string c) = true /\
  starts_with_digit (Z_to_string c) = true /\
  Number_of_digits (Z_to_string c) = c /\
  css_byte c = c.
Proof.
  intros Hc.
  assert (H : all_digits (Z_to_string c) && starts_with_digit (Z_to_string c)
              && (Number_of_digits (Z_to_string c) =? c) = true).
  { revert c Hc. apply byte_forall. vm_compute. reflexivity. }
  apply andb_true_iff in H. destruct H as [H H3].
  apply andb_true_iff in H. destruct H as [H1 H2].
  apply Z.eqb_eq in H3. unfold css_byte. repeat split; try assumption. lia.
Qed.

(** What the browser makes of the text [rgb(R,G,B)] written with three
    channel values. *)
Lemma css_parse_rgb_channels (c1 c2 c3 : Z) :
  0 <= c1 <= 255 -> 0 <= c2 <= 255 -> 0 <= c3 <= 255 ->
  css_parse_rgb ("rgb(" ++ Z_to_string c1 ++ "," ++ Z_to_string c2 ++ ","
                        ++ Z_to_string c3 ++ ")")
  = Some (mkRGB c1 c2 c3).
Proof.
  intros H1 H2 H3.
  destruct (channel_text_digits c1 H1) as (A1 & S1 & N1 & B1).
  destruct (channel_text_digits c2 H2) as (A2 & S2 & N2 & B2).
  destruct (channel_text_digits c3 H3) as (A3 & S3 & N3 & B3).
  unfold css_parse_rgb. cbn [append skip_spaces].
  destruct (css_integer_run (Z_to_string c1)
              ("," ++ Z_to_string c2 ++ "," ++ Z_to_string c3 ++ ")")
              A1 S1 eq_refl) as [K1 I1].
  destruct (css_integer_run (Z_to_string c2)
              ("," ++ Z_to_string c3 ++ ")") A2 S2 eq_refl) as [K2 I2].
  destruct (css_integer_run (Z_to_string c3) ")" A3 S3 eq_refl) as [K3 I3].
  cbn [append] in K1, I1, K2, I2, K3, I3.
  rewrite K1, I1. unfold css_expect at 1. cbn [skip_spaces Ascii.eqb Bool.eqb].
  rewrite K2, I2. unfold css_expect at 1. cbn [skip_spaces Ascii.eqb Bool.eqb].
  rewrite K3, I3. unfold css_expect at 1. cbn [skip_spaces Ascii.eqb Bool.eqb].
  now rewrite N1, N2, N3, B1, B2, B3.
Qed.

Lemma matchAll_digits_skip (c : ascii) (rest run : string) :
  is_digit c = false ->
  matchAll_digits_from (String c rest) run
  = flush_run run ++ matchAll_digits_from rest EmptyString.
Proof. intros Hc. cbn [matchAll_digits_from]. now rewrite Hc. Qed.

Lemma flush_run_digits (run : string) :
  starts_with_digit run = true -> flush_run run = [run].
Proof. destruct run; [discriminate | reflexivity]. Qed.

(** What [rgbCSSColorToRGB] reads in the text that the browser reports. *)
Lemma rgbCSSColorToRGB_serialize (c : RGB) :
  channel_range c -> rgbCSSColorToRGB (css_serialize c) = Ok (Some c).
Proof.
  intros (Hr & Hg & Hb).
  destruct (channel_text_digits _ Hr) as (A1 & S1 & N1 & _).
  destruct (channel_text_digits _ Hg) as (A2 & S2 & N2 & _).
  destruct (channel_text_digits _ Hb) as (A3 & S3 & N3 & _).
  unfold css_serialize, rgbCSSColorToRGB. cbn [append].
  unfold matchAll_digits.
  rewrite !matchAll_digits_skip by reflexivity.
  rewrite matchAll_digits_run by assumption.
  rewrite !matchAll_digits_skip by reflexivity.
  rewrite matchAll_digits_run by assumption.
  rewrite !matchAll_digits_skip by reflexivity.
  rewrite matchAll_digits_run by assumption.
  rewrite !matchAll_digits_skip by reflexivity.
  cbn [append matchAll_digits_from].
  rewrite (flush_run_digits _ S1), (flush_run_digits _ S2),
    (flush_run_digits _ S3).
  cbn [flush_run app]. unfold match_value. cbn [nth_error bind].
  rewrite N1, N2, N3. now destruct c.
Qed.

Lemma darker_range (c : RGB) : channel_range c -> channel_range (darker c).
Proof. unfold channel_range, darker; simpl. lia. Qed.

Lemma style_set_channels (old : string) (c1 c2 c3 : Z) :
  0 <= c1 <= 255 -> 0 <= c2 <= 255 -> 0 <= c3 <= 255 ->
  style_set_backgroundColor old
    ("rgb(" ++ Z_to_string c1 ++ "," ++ Z_to_string c2 ++ ","
            ++ Z_to_string c3 ++ ")")
  = css_serialize (mkRGB c1 c2 c3).
Proof.
  intros H1 H2 H3. unfold style_set_backgroundColor.
  now rewrite css_parse_rgb_channels by assumption.
Qed.

(** The darken step on a cell that holds the colour [c]: the variant leaves
    [darker c] in the cell; [script.js] leaves it with green and blue
    exchanged. *)
Lemma darken_step (p : page) (x y : Z) (i : nat) (target : cell) (c : RGB) :
  node_at (childNodes p) (cell_index (canvasDimension p) x y)
  = Some (i, target) ->
  backgroundColor target = css_serialize c ->
  channel_range c ->
  darkenColor_checked p = true ->
  (exists p',
      Variant.changeCellColor x y p = Ok p' /\
      nth_error (childNodes p') i
      = Some (mkCell (data_x target) (data_y target)
                     (css_serialize (darker c)))) /\
  (exists p',
      Script.changeCellColor x y p = Ok p' /\
      nth_error (childNodes p') i
      = Some (mkCell (data_x target) (data_y target)
                     (css_serialize (mkRGB (r (darker c)) (b (darker c))
                                           (g (darker c)))))).
Proof.
  intros Hnode Hcolor Hrange Hdark.
  pose proof (node_at_nth _ _ _ _ Hnode) as Hnth.
  pose proof (rgbCSSColorToRGB_serialize c Hrange) as Hparse.
  destruct (darker_range c Hrange) as (Dr & Dg & Db).
  unfold Variant.changeCellColor, Script.changeCellColor.
  rewrite Hnode, Hdark. cbv zeta. rewrite Hcolor.
  destruct (css_serialize c) as [| a text] eqn:E;
    [now apply css_serialize_not_empty in E |].
  rewrite Hparse. cbn [bind fst snd].
  rewrite changeColorBrightness_darken, increaseColorBrightness_darken
    by assumption.
  split; eexists; (split; [reflexivity |]);
    cbn [childNodes set_drawn set_childNodes];
    rewrite (assign_backgroundColor_at _ _ _ _ Hnth); do 2 f_equal;
    unfold Variant.color_text, Script.color_text, channel_text;
    now apply style_set_channels.
Qed.

(** C4 fails on [script.js].  [increaseColorBrightness] computes on every
    channel the value of the specification's formula,
    [floor(clamp(channel/255 + (-10/100), 0, 1) * 255)] clamped into
    [[0,255]], but the darken step of [script.js] writes the result with the
    template [rgb(r,b,g)]: the cell receives the darkened blue as its green
    and the darkened green as its blue.  The cell holds the colour of the
    specification only when these two are equal; the variant writes
    [rgb(r,g,b)] and leaves the colour of the specification. *)
Theorem darken_step_exchanges (p : page) (x y : Z) (i : nat) (target : cell)
        (c : RGB) :
  node_at (childNodes p) (cell_index (canvasDimension p) x y)
  = Some (i, target) ->
  backgroundColor target = css_serialize c ->
  channel_range c ->
  darkenColor_checked p = true ->
  let spec := mkRGB (spec_darken_channel (r c)) (spec_darken_channel (g c))
                    (spec_darken_channel (b c)) in
  Script.increaseColorBrightness c (-10) = spec /\
  (exists p',
      Script.changeCellColor x y p = Ok p' /\
      nth_error (childNodes p') i
      = Some (mkCell (data_x target) (data_y target)
                     (css_serialize (mkRGB (r spec) (b spec) (g spec))))) /\
  (exists p',
      Variant.changeCellColor x y p = Ok p' /\
      nth_error (childNodes p') i
      = Some (mkCell (data_x target) (data_y target) (css_serialize spec))) /\
  (css_serialize (mkRGB (r spec) (b spec) (g spec)) = css_serialize spec <->
   spec_darken_channel (g c) = spec_darken_channel (b c)).
Proof.
  intros Hnode Hcolor Hrange Hdark spec.
  assert (Hspec : darker c = spec).
  { destruct Hrange as (Hr & Hg & Hb). unfold darker, spec.
    now rewrite !spec_darken_channel_value by assumption. }
  pose proof (darker_range c Hrange) as Hd. rewrite Hspec in Hd.
  destruct (darken_step p x y i target c Hnode Hcolor Hrange Hdark)
    as [Hvariant Hscript].
  rewrite Hspec in Hvariant, Hscript.
  split; [| split; [exact Hscript | split; [exact Hvariant |]]].
  - now rewrite increaseColorBrightness_darken.
  - split.
    + intros Heq.
      assert (Hswap : channel_range (mkRGB (r spec) (b spec) (g spec)))
        by (destruct Hd as (Hr & Hg & Hb); now repeat split).
      pose proof (rgbCSSColorToRGB_serialize _ Hswap) as P1.
      pose proof (rgbCSSColorToRGB_serialize _ Hd) as P2.
      rewrite Heq, P2 in P1. unfold spec in P1. cbn [r g b] in P1.
      congruence.
    + intros Heq. unfold spec. cbn [r g b]. now rewrite Heq.
Qed.

Lemma darken_step_exchanges_witness :
  let p := sample_page 1 ["rgb(100, 150, 200)"%string] None false true in
  let target := mkCell 0 0 "rgb(100, 150, 200)" in
  node_at (childNodes p) (cell_index (canvasDimension p) 0 0)
  = Some (0%nat, target) /\
  backgroundColor target = css_serialize (mkRGB 100 150 200) /\
  channel_range (mkRGB 100 150 200) /\
  darkenColor_checked p = true /\
  Script.increaseColorBrightness (mkRGB 100 150 200) (-10) = mkRGB 74 124 174 /\
  (exists p',
      Script.changeCellColor 0 0 p = Ok p' /\
      nth_error (childNodes p') 0
      = Some (mkCell 0 0 "rgb(74, 174, 124)")) /\
  "rgb(74, 174, 124)"%string <> css_serialize (mkRGB 74 124 174).
Proof.
  intros p target.
  assert (H1 : node_at (childNodes p) (cell_index (canvasDimension p) 0 0)
               = Some (0%nat, target)) by reflexivity.
  assert (H2 : backgroundColor target = css_serialize (mkRGB 100 150 200))
    by reflexivity.
  assert (H3 : channel_range (mkRGB 100 150 200))
    by (unfold channel_range; simpl; lia).
  assert (H4 : darkenColor_checked p = true) by reflexivity.
  refine (conj H1 (conj H2 (conj H3 (conj H4 _)))).
  destruct (darken_step_exchanges p 0 0 0 target (mkRGB 100 150 200)
              H1 H2 H3 H4) as (Hfun & Hscript & _ & _).
  refine (conj Hfun (conj Hscript _)).
  discriminate.
Defined.

(** ** The colour step on the colour strings *)

Lemma rgbCSSColorToRGB_runs (text d1 d2 d3 : string) (rest : list string) :
  text <> EmptyString ->
  matchAll_digits text = d1 :: d2 :: d3 :: rest ->
  rgbCSSColorToRGB text
  = Ok (Some (mkRGB (Number_of_digits d1) (Number_of_digits d2)
                    (Number_of_digits d3))).
Proof.
  intros Hset Hruns. unfold rgbCSSColorToRGB, match_value.
  destruct text as [| a text]; [contradiction |].
  now rewrite Hruns.
Qed.

(** C6, as the code has it.  A missing (empty) colour string is treated as
    unset: the colour step does not throw and takes the default-colour
    path, which paints rgb(240, 240, 240) and, in Random mode, the colour
    made of the next three draws.  A string that is not empty is never
    treated as unset: with the darken toggle off the cell is left as it is;
    with the toggle on the colour step throws a [TypeError] exactly when the
    string has fewer than three runs of digits, and otherwise reads the
    colour from the first three runs, in the order red, green, blue, and
    writes the darkened colour. *)
Theorem color_string_cases (p : page) (x y : Z) (i : nat) (c : cell) :
  node_at (childNodes p) (cell_index (canvasDimension p) x y) = Some (i, c) ->
  (backgroundColor c = EmptyString ->
     (exists p', Script.changeCellColor x y p = Ok p') /\
     (randomColor_checked p = false ->
        exists p', Script.changeCellColor x y p = Ok p' /\
                   drawn p' = drawn p /\
                   nth_error (childNodes p') i
                   = Some (mkCell (data_x c) (data_y c) "rgb(240, 240, 240)")) /\
     (randomColor_checked p = true -> unit_draws (random p) ->
        let k := Script.getRandomColor (random p) (drawn p) in
        channel_range k /\
        exists p', Script.changeCellColor x y p = Ok p' /\
                   drawn p' = (drawn p + 3)%nat /\
                   nth_error (childNodes p') i
                   = Some (mkCell (data_x c) (data_y c)
                                  (css_serialize (mkRGB (r k) (b k) (g k)))))) /\
  (backgroundColor c <> EmptyString -> darkenColor_checked p = false ->
     Script.changeCellColor x y p = Ok p) /\
  (backgroundColor c <> EmptyString -> darkenColor_checked p = true ->
     (Script.changeCellColor x y p = Throw TypeError <->
      (List.length (matchAll_digits (backgroundColor c)) < 3)%nat) /\
     (forall d1 d2 d3 rest,
         matchAll_digits (backgroundColor c) = d1 :: d2 :: d3 :: rest ->
         let color := mkRGB (Number_of_digits d1) (Number_of_digits d2)
                            (Number_of_digits d3) in
         rgbCSSColorToRGB (backgroundColor c) = Ok (Some color) /\
         exists p',
           Script.changeCellColor x y p = Ok p' /\
           drawn p' = drawn p /\
           nth_error (childNodes p') i
           = Some (mkCell (data_x c) (data_y c)
                     (style_set_backgroundColor (backgroundColor c)
                        (Script.color_text
                           (ColorObject
                              (Script.increaseColorBrightness color (-10)))))))).
Proof.
  intros Hnode. pose proof (node_at_nth _ _ _ _ Hnode) as Hnth.
  split; [| split].
  - intros Hempty. unfold Script.changeCellColor.
    rewrite Hnode. cbv zeta. rewrite Hempty. split; [| split].
    + destruct (randomColor_checked p); cbn [bind]; eauto.
    + intros ->. cbn [bind fst snd]. eexists. split; [reflexivity |].
      split; [reflexivity |].
      cbn [childNodes set_drawn set_childNodes].
      rewrite (assign_backgroundColor_at _ _ _ _ Hnth). now rewrite Hempty.
    + intros -> Hu.
      pose proof (script_random_range (random p) (drawn p) Hu) as Hk.
      split; [exact Hk |]. destruct Hk as (Hr & Hg & Hb).
      cbn [bind fst snd]. eexists. split; [reflexivity |].
      split; [reflexivity |].
      cbn [childNodes set_drawn set_childNodes].
      rewrite (assign_backgroundColor_at _ _ _ _ Hnth). do 2 f_equal.
      unfold Script.color_text, channel_text.
      now apply style_set_channels.
  - intros Hset Hdark. now apply (repaint_keeps_string p x y i c).
  - intros Hset Hdark. split.
    + unfold Script.changeCellColor.
      rewrite Hnode, Hdark. cbv zeta.
      destruct (backgroundColor c) as [| a text]; [contradiction |].
      rewrite <- rgbCSSColorToRGB_throws.
      destruct (rgbCSSColorToRGB_cases a text) as [-> | [color ->]];
        cbn [bind]; split; intros H; try reflexivity; discriminate.
    + intros d1 d2 d3 rest Hruns.
      pose proof (rgbCSSColorToRGB_runs _ _ _ _ _ Hset Hruns) as Hparse.
      cbv zeta. split; [exact Hparse |].
      unfold Script.changeCellColor.
      rewrite Hnode, Hdark. cbv zeta.
      destruct (backgroundColor c) as [| a text] eqn:Hcolor; [contradiction |].
      rewrite Hparse. cbn [bind fst snd].
      eexists. split; [reflexivity |]. split; [reflexivity |].
      cbn [childNodes set_drawn set_childNodes].
      rewrite (assign_backgroundColor_at _ _ _ _ Hnth). now rewrite Hcolor.
Qed.

Lemma color_string_cases_witness :
  let p := sample_page 2 [""; "rgb(100, 150, 200)"; "black"; ""]%string
                       None false true in
  node_at (childNodes p) (cell_index (canvasDimension p) 0 1)
  = Some (2%nat, mkCell 0 1 "black") /\
  (Script.changeCellColor 0 1 p = Throw TypeError <->
   (List.length (matchAll_digits "black") < 3)%nat).
Proof.
  intros p.
  assert (H1 : node_at (childNodes p) (cell_index (canvasDimension p) 0 1)
               = Some (2%nat, mkCell 0 1 "black")) by reflexivity.
  refine (conj H1 _).
  apply (proj2 (proj2 (color_string_cases p 0 1 2 (mkCell 0 1 "black") H1))).
  - discriminate.
  - reflexivity.
Defined.

(** The colour step of [script.js] on the colour strings of a sample page:
    a string with three runs of digits is darkened from the colour read in
    it, a string with four runs from the first three, and an unset cell in
    Random mode takes the draws 0, 1/4 and 2/4, that is the colour
    (0, 64, 128), written red, blue, green. *)
Example color_string_examples :
  Script.changeCellColor 1 0
    (sample_page 2 [""; "rgb(100, 150, 200)"; "black"; ""]%string
                 None false true)
  = Ok (sample_page 2 [""; "rgb(74, 174, 124)"; "black"; ""]%string
                    None false true) /\
  rgbCSSColorToRGB "rgba(100, 150, 200, 0.5)" = Ok (Some (mkRGB 100 150 200)) /\
  rgbCSSColorToRGB "1 2" = Throw TypeError /\
  match Script.changeCellColor 0 0
          (sample_page 2 [""; ""; ""; ""]%string None true false) with
  | Ok p' => Some (map backgroundColor (childNodes p'), drawn p')
  | Throw _ => None
  end = Some (["rgb(0, 128, 64)"; ""; ""; ""]%string, 3%nat).
Proof. repeat split. Qed.

(** The claim of C6 fails on a colour string without digits: with the darken
    toggle on the colour step throws, and with the toggle off the cell keeps
    the string instead of taking the default colour. *)
Lemma malformed_color_string_not_unset :
  Script.changeCellColor 0 0 (sample_page 1 ["black"%string] None false true)
  = Throw TypeError /\
  Script.changeCellColor 0 0 (sample_page 1 ["black"%string] None false false)
  = Ok (sample_page 1 ["black"%string] None false false) /\
  Script.changeCellColor 0 0 (sample_page 1 [EmptyString] None false false)
  = Ok (sample_page 1 ["rgb(240, 240, 240)"%string] None false false).
Proof. repeat split. Qed.
